(** * Decoders of gobmp: BGP Open message, SR Local Block, MSD type/value pairs

    Shallow embedding of [pkg/bgp] ([UnmarshalBGPOpenMessage],
    [GetCapabilities], [Is4BytesASCapable], [IsMultiLabelCapable]), [pkg/sr] ([UnmarshalSRLocalBlock]) and
    [pkg/base] ([UnmarshalMSDTV]).

    Go byte slices are views into byte arrays that live on a heap, so that
    aliasing and writes ([copy]) are visible; a Go run-time panic (index or
    slice bounds out of range) is an outcome of its own, carrying the heap
    at the time of the panic.  Bytes are [Z] values in [0, 256); positions
    and lengths (Go [int]) are [nat]. *)

From Stdlib Require Import ZArith Lia.
From stdpp Require Import base list strings pretty.

Module Go.

(** Run-time panics raised by the Go code modelled here. *)
Inductive panic_kind : Type :=
| IndexOutOfRange
| SliceBoundsOutOfRange.

(** The heap: byte arrays, addressed by their position in the list. *)
Abbreviation heap := (list (list Z)).

(** A Go slice [[]byte]: backing array, offset into it, length, capacity. *)
Record slice : Type := mkSlice {
  s_arr : nat;
  s_off : nat;
  s_len : nat;
  s_cap : nat
}.

Inductive outcome (A : Type) : Type :=
| Done (a : A) (h : heap)
| Panic (k : panic_kind) (h : heap).
Arguments Done {A} a h.
Arguments Panic {A} k h.

(** State monad over the heap, with panics. *)
Definition M (A : Type) : Type := heap -> outcome A.

Definition ret {A : Type} (a : A) : M A := fun h => Done a h.

Definition bind {A B : Type} (m : M A) (f : A -> M B) : M B := fun h =>
  match m h with
  | Done a h' => f a h'
  | Panic k h' => Panic k h'
  end.

Definition panic {A : Type} (k : panic_kind) : M A := fun h => Panic k h.

Notation "'let!' x := m 'in' k" := (bind m (fun x => k))
  (at level 200, x name, m at level 100, k at level 200).
Notation "'let!' ' p := m 'in' k" :=
  (bind m (fun x => match x with p => k end))
  (at level 200, p pattern, m at level 100, k at level 200).

Definition out_heap {A : Type} (o : outcome A) : heap :=
  match o with Done _ h => h | Panic _ h => h end.

(** The bytes a slice shows: [b[0:len(b)]]. *)
Definition contents (h : heap) (b : slice) : list Z :=
  match h !! s_arr b with
  | Some a => take (s_len b) (drop (s_off b) a)
  | None => []
  end.

(** A slice whose window [off, off+cap) lies inside its backing array. *)
Definition slice_wf (h : heap) (b : slice) : Prop :=
  exists a, h !! s_arr b = Some a /\
    (s_len b <= s_cap b)%nat /\ (s_off b + s_cap b <= length a)%nat.

(** [b[i]]: bounds-checked against [len(b)]. *)
Definition index (b : slice) (i : nat) : M Z := fun h =>
  if (i <? s_len b)%nat then
    match h !! s_arr b with
    | Some a =>
        match a !! (s_off b + i)%nat with
        | Some v => Done v h
        | None => Panic IndexOutOfRange h
        end
    | None => Panic IndexOutOfRange h
    end
  else Panic IndexOutOfRange h.

(** [b[lo:hi]]: requires [lo <= hi <= cap(b)]. *)
Definition slice_lh (b : slice) (lo hi : nat) : M slice :=
  if ((lo <=? hi) && (hi <=? s_cap b))%nat then
    ret (mkSlice (s_arr b) (s_off b + lo) (hi - lo) (s_cap b - lo))
  else panic SliceBoundsOutOfRange.

(** [b[lo:]], that is [b[lo:len(b)]]. *)
Definition slice_from (b : slice) (lo : nat) : M slice :=
  slice_lh b lo (s_len b).

(** [make([]byte, n)]: a fresh zeroed array. *)
Definition make_bytes (n : nat) : M slice := fun h =>
  Done (mkSlice (length h) 0 n n) (h ++ [replicate n 0%Z]).

Definition write_at (off : nat) (xs a : list Z) : list Z :=
  take off a ++ xs ++ drop (off + length xs) a.

(** [copy(dst, src)]: copies [min(len(dst), len(src))] bytes, returns the count. *)
Definition copy_bytes (dst src : slice) : M nat := fun h =>
  let n := Nat.min (s_len dst) (s_len src) in
  let xs := take n (contents h src) in
  match h !! s_arr dst with
  | Some a => Done n (<[s_arr dst := write_at (s_off dst) xs a]> h)
  | None => Done n h
  end.

(** [binary.BigEndian.Uint16(b)]: [_ = b[1]; uint16(b[1]) | uint16(b[0])<<8]. *)
Definition be_uint16 (b : slice) : M Z :=
  let! b1 := index b 1 in
  let! b0 := index b 0 in
  ret (Z.lor b1 (Z.land (Z.shiftl b0 8) 65535)).

(** [binary.BigEndian.Uint32] on a byte slice held as a value. *)
Inductive result (A : Type) : Type :=
| Returns (a : A)
| Panics (k : panic_kind).
Arguments Returns {A} a.
Arguments Panics {A} k.

Definition be_uint32 (b : list Z) : result Z :=
  match b !! 3%nat, b !! 2%nat, b !! 1%nat, b !! 0%nat with
  | Some b3, Some b2, Some b1, Some b0 =>
      Returns (Z.lor (Z.lor b3 (Z.shiftl b2 8))
                     (Z.lor (Z.shiftl b1 16) (Z.land (Z.shiftl b0 24) (2^32 - 1)%Z)))
  | _, _, _, _ => Panics IndexOutOfRange
  end.

(** Go conversions [int16(u)] and [int32(u)] (two's complement wrap). *)
Definition to_int16 (u : Z) : Z := (if u <? 2^15 then u else u - 2^16)%Z.
Definition to_int32 (u : Z) : Z := (if u <? 2^31 then u else u - 2^32)%Z.

End Go.
Import Go.

(** ** Package bgp *)
Module BGP.

(** [InformationalTLV]: one optional parameter of the Open message.  Its Go
    declaration is not among the sources; the fields follow the spec's TLV
    Record {type, length, value}, with the value bytes copied out. *)
Module ITLV.
Record InformationalTLV : Type := {
  Type' : Z;
  Length : Z;
  Value : list Z
}.
End ITLV.
Import ITLV.

Definition BGPMinOpenMessageLength : nat := 29.

(** [OpenMessage]; [BGPID] is a [[]byte] made by the decoder. *)
Record OpenMessage : Type := {
  Length : Z;
  Type' : Z;
  Version : Z;
  MyAS : Z;
  HoldTime : Z;
  BGPID : slice;
  OptParamLen : Z;
  OptionalParameters : list InformationalTLV
}.

Section Open.

(** [UnmarshalBGPTLV], the scanner of the optional-parameter region (not
    among the sources); a Go [error] is [option string], [None] for nil. *)
Variable UnmarshalBGPTLV : slice -> M (list InformationalTLV * option string).

(** [UnmarshalBGPOpenMessage]; [p] is written out as the literal offsets it
    takes (0, 2, 3, 4, 6, 8, 12, 13).  Log output is not modelled. *)
Definition UnmarshalBGPOpenMessage (b : slice)
  : M (option OpenMessage * option string) :=
  if (s_len b <? BGPMinOpenMessageLength)%nat then
    ret (None, Some ("BGP Open Message length " ++ pretty (s_len b)
                     ++ " is invalid")%string)
  else
  let! bgpid := make_bytes 4 in
  let! w := slice_lh b 0 2 in
  let! len := be_uint16 w in
  let! t := index b 2 in
  if negb (t =? 1)%Z then
    ret (None, Some ("invalid message type " ++ pretty t
                     ++ " for BGP Open Message")%string)
  else
  let! ver := index b 3 in
  if negb (ver =? 4)%Z then
    ret (None, Some ("invalid message version " ++ pretty ver
                     ++ " for BGP Open Message")%string)
  else
  let! w := slice_lh b 4 6 in
  let! myas := be_uint16 w in
  let! w := slice_lh b 6 8 in
  let! ht := be_uint16 w in
  let! w := slice_lh b 8 12 in
  let! _ := copy_bytes bgpid w in
  let! opl := index b 12 in
  if negb (opl =? 0)%Z then
    let! w := slice_lh b 13 (13 + Z.to_nat opl) in
    let! '(tlvs, err) := UnmarshalBGPTLV w in
    match err with
    | Some e => ret (None, Some e)
    | None =>
        ret (Some {| Length := to_int16 len; Type' := t; Version := ver;
                     MyAS := myas; HoldTime := to_int16 ht; BGPID := bgpid;
                     OptParamLen := opl; OptionalParameters := tlvs |}, None)
    end
  else
    ret (Some {| Length := to_int16 len; Type' := t; Version := ver;
                 MyAS := myas; HoldTime := to_int16 ht; BGPID := bgpid;
                 OptParamLen := opl; OptionalParameters := [] |}, None).

End Open.

Section Capabilities.

(** [Capability] and [UnmarshalBGPCapability] are not among the sources:
    the capability map, its Go map index [caps[code]] (giving the
    capability's [Value] bytes) and its decoder are parameters here. *)
Variable Capability : Type.
Variable cap_lookup : Capability -> Z -> option (list Z).
Variable UnmarshalBGPCapability : list Z -> Capability * option string.

(** [Is4BytesASCapable]. *)
Fixpoint Is4BytesASCapable_loop (ts : list InformationalTLV) : result (Z * bool) :=
  match ts with
  | [] => Returns (0%Z, false)
  | t :: ts' =>
      if negb (ITLV.Type' t =? 2)%Z then Is4BytesASCapable_loop ts' else
      match UnmarshalBGPCapability (ITLV.Value t) with
      | (_, Some _) => Is4BytesASCapable_loop ts'
      | (caps, None) =>
          match cap_lookup caps 65 with
          | None => Returns (0%Z, false)
          | Some v =>
              match be_uint32 v with
              | Returns u => Returns (to_int32 u, true)
              | Panics k => Panics k
              end
          end
      end
  end.

Definition Is4BytesASCapable (o : OpenMessage) : result (Z * bool) :=
  Is4BytesASCapable_loop (OptionalParameters o).

(** Go's nil [Capability] map. *)
Variable cap_nil : Capability.

(** [GetCapabilities]: the first type-2 parameter is decoded and its
    result returned as is; without one, [nil, fmt.Errorf("not found")]. *)
Fixpoint GetCapabilities_loop (ts : list InformationalTLV) : Capability * option string :=
  match ts with
  | [] => (cap_nil, Some "not found"%string)
  | t :: ts' =>
      if negb (ITLV.Type' t =? 2)%Z then GetCapabilities_loop ts'
      else UnmarshalBGPCapability (ITLV.Value t)
  end.

Definition GetCapabilities (o : OpenMessage) : Capability * option string :=
  GetCapabilities_loop (OptionalParameters o).

End Capabilities.

(** [IsMultiLabelCapable]: true as soon as a parameter has type 8. *)
Fixpoint IsMultiLabelCapable_loop (ts : list InformationalTLV) : bool :=
  match ts with
  | [] => false
  | t :: ts' => if (ITLV.Type' t =? 8)%Z then true else IsMultiLabelCapable_loop ts'
  end.

Definition IsMultiLabelCapable (o : OpenMessage) : bool :=
  IsMultiLabelCapable_loop (OptionalParameters o).

End BGP.

(** ** Package base *)
Module Base.

(** [MSDTV]; the Go code builds a fresh [*MSDTV] per pair. *)
Record MSDTV : Type := {
  Type' : Z;
  Value : Z
}.

(** The loop [for p := 0; p < len(b); { ... }] of [UnmarshalMSDTV]; [p]
    grows by 2 per turn, so [len(b)] turns (the fuel) always suffice. *)
Fixpoint UnmarshalMSDTV_loop (fuel : nat) (b : slice) (p : nat) (tvs : list MSDTV)
  : M (list MSDTV) :=
  match fuel with
  | O => ret tvs
  | S fuel' =>
      if (p <? s_len b)%nat then
        let! t := index b p in
        let! v := index b (p + 1) in
        UnmarshalMSDTV_loop fuel' b (p + 2) (tvs ++ [{| Type' := t; Value := v |}])
      else ret tvs
  end.

(** [UnmarshalMSDTV]. *)
Definition UnmarshalMSDTV (b : slice) : M (list MSDTV * option string) :=
  let! tvs := UnmarshalMSDTV_loop (s_len b) b 0 [] in
  ret (tvs, None).

End Base.

(** ** Package sr *)
Module SR.

Section LocalBlock.

(** [LocalBlockTLV] and [UnmarshalSRLocalBlockTLV] are not among the
    sources: parameters. *)
Variable LocalBlockTLV : Type.
Variable UnmarshalSRLocalBlockTLV : slice -> M (list LocalBlockTLV * option string).

(** [LocalBlock]. *)
Record LocalBlock : Type := {
  Flags : Z;
  TLV : list LocalBlockTLV
}.

(** [UnmarshalSRLocalBlock]: flags at [p = 0], reserved byte skipped, the
    sub-TLVs from [b[2:]]. *)
Definition UnmarshalSRLocalBlock (b : slice)
  : M (option LocalBlock * option string) :=
  let! flags := index b 0 in
  let! w := slice_from b 2 in
  let! '(tlvs, err) := UnmarshalSRLocalBlockTLV w in
  match err with
  | Some e => ret (None, Some e)
  | None => ret (Some {| Flags := flags; TLV := tlvs |}, None)
  end.

End LocalBlock.

Arguments Flags {LocalBlockTLV} l.
Arguments TLV {LocalBlockTLV} l.

End SR.

(** ** TLV scanning as the spec describes it *)
Module SpecTLV.
Import BGP.ITLV.

(** Modelled from the spec: the TLV scanner behind [UnmarshalBGPTLV] (and
    the capability decoder), which is not among the sources.  Section 4.2:
    read type (1 byte), length (1 byte), then that many value bytes, until
    no byte remains; a declared length past the region end is an error.
    Each record takes at least 2 bytes, so [length bs + 1] steps of fuel
    suffice. *)
Fixpoint scan_tlv (fuel : nat) (bs : list Z) : option (list InformationalTLV) :=
  match fuel with
  | O => None
  | S fuel' =>
      match bs with
      | [] => Some []
      | t :: l :: rest =>
          let n := Z.to_nat l in
          if (n <=? length rest)%nat then
            match scan_tlv fuel' (drop n rest) with
            | Some ts => Some ({| Type' := t; Length := l; Value := take n rest |} :: ts)
            | None => None
            end
          else None
      | [_] => None
      end
  end.

Definition scan (bs : list Z) : option (list InformationalTLV) :=
  scan_tlv (S (length bs)) bs.

(** Modelled from the spec: [UnmarshalBGPTLV], a read-only TLV scan of the
    bytes of the slice. *)
Definition UnmarshalBGPTLV (w : slice) : M (list InformationalTLV * option string) :=
  fun h =>
    match scan (contents h w) with
    | Some ts => Done (ts, None) h
    | None => Done ([], Some "malformed TLV"%string) h
    end.

(** Modelled from the spec: the capability map (code to value bytes) and
    [UnmarshalBGPCapability], a TLV scan of an optional parameter's value
    (section 4.3); a later capability of the same code replaces an earlier
    one, as a Go map assignment does. *)
Definition Capability : Type := list (Z * list Z).

Fixpoint cap_lookup (c : Capability) (k : Z) : option (list Z) :=
  match c with
  | [] => None
  | (k', v) :: c' => if (k' =? k)%Z then Some v else cap_lookup c' k
  end.

Definition UnmarshalBGPCapability (v : list Z) : Capability * option string :=
  match scan v with
  | Some ts => (fold_left (fun c t => (Type' t, Value t) :: c) ts [], None)
  | None => ([], Some "malformed capability"%string)
  end.

End SpecTLV.

(** ** Concrete buffers *)
Module Fixtures.

(** A 29-byte Open message body with type [t], version [v] and
    optional-parameter length [opl], the rest zero. *)
Definition open_buf (t v opl : Z) : list Z :=
  [0; 29; t; v; 0; 1; 0; 90; 10; 0; 0; 1; opl]%Z ++ replicate 16 0%Z.


(** An Open message (29 bytes) with two capability parameters: the first
    carries capability 1 only, the second capability 65 = [00 00 00 01]. *)
Definition open_two_caps : list Z :=
  [0; 29; 1; 4; 0; 1; 0; 90; 10; 0; 0; 1; 12;
   2; 2; 1; 0;
   2; 6; 65; 4; 0; 0; 0; 1;
   0; 0; 0; 0]%Z.

(** An optional parameter of type [t] with value [v]. *)
Definition param (t : Z) (v : list Z) : BGP.ITLV.InformationalTLV :=
  {| BGP.ITLV.Type' := t; BGP.ITLV.Length := Z.of_nat (length v); BGP.ITLV.Value := v |}.

(** A decoded Open message with optional parameters [ps]. *)
Definition open_msg (ps : list BGP.ITLV.InformationalTLV) : BGP.OpenMessage :=
  {| BGP.Length := 29; BGP.Type' := 1; BGP.Version := 4; BGP.MyAS := 1;
     BGP.HoldTime := 90; BGP.BGPID := mkSlice 1 0 4 4; BGP.OptParamLen := 0;
     BGP.OptionalParameters := ps |}.

End Fixtures.
Import Fixtures.

(** * Properties *)

(** ** Slices and the heap *)
Module GoFacts.

Lemma contents_lookup_total (h : heap) (b : slice) (a : list Z) (i : nat) :
  h !! s_arr b = Some a -> (i < s_len b)%nat ->
  contents h b !!! i = a !!! (s_off b + i)%nat.
Proof.
  intros Ha Hi. unfold contents. rewrite Ha.
  by rewrite lookup_total_take_lt, lookup_total_drop by lia.
Qed.

Lemma length_contents (h : heap) (b : slice) (a : list Z) :
  h !! s_arr b = Some a -> (s_len b <= s_cap b)%nat ->
  (s_off b + s_cap b <= length a)%nat ->
  length (contents h b) = s_len b.
Proof.
  intros Ha Hlc Hca. unfold contents. rewrite Ha.
  rewrite length_take, length_drop. lia.
Qed.

Lemma lookup_app_old (h : heap) (x : list Z) (i : nat) (a : list Z) :
  h !! i = Some a -> (h ++ [x]) !! i = Some a.
Proof. intros Ha. by apply lookup_app_l_Some. Qed.

Lemma bind_ret {A B : Type} (x : A) (f : A -> M B) (h : heap) :
  bind (ret x) f h = f x h.
Proof. reflexivity. Qed.

Lemma bind_index {B : Type} (h : heap) (b : slice) (a : list Z) (i : nat)
    (f : Z -> M B) :
  h !! s_arr b = Some a -> (i < s_len b)%nat -> (s_off b + i < length a)%nat ->
  bind (index b i) f h = f (a !!! (s_off b + i)%nat) h.
Proof.
  intros Ha Hi Hia. unfold bind, index.
  destruct (Nat.ltb_spec i (s_len b)); [| lia].
  rewrite Ha, (list_lookup_lookup_total_lt a) by done. reflexivity.
Qed.

Lemma bind_slice_lh {B : Type} (h : heap) (b : slice) (lo hi : nat)
    (f : slice -> M B) :
  (lo <= hi)%nat -> (hi <= s_cap b)%nat ->
  bind (slice_lh b lo hi) f h
  = f (mkSlice (s_arr b) (s_off b + lo) (hi - lo) (s_cap b - lo)) h.
Proof.
  intros Hlh Hc. unfold slice_lh.
  destruct (Nat.leb_spec lo hi); [| lia].
  destruct (Nat.leb_spec hi (s_cap b)); [| lia]. reflexivity.
Qed.

Lemma bind_slice_lh_out {B : Type} (h : heap) (b : slice) (lo hi : nat)
    (f : slice -> M B) :
  (s_cap b < hi)%nat ->
  bind (slice_lh b lo hi) f h = Panic SliceBoundsOutOfRange h.
Proof.
  intros Hc. unfold bind, slice_lh.
  destruct (Nat.leb_spec hi (s_cap b)); [lia |].
  by rewrite andb_false_r.
Qed.

Lemma bind_be_uint16 {B : Type} (h : heap) (b : slice) (a : list Z)
    (f : Z -> M B) :
  h !! s_arr b = Some a -> (2 <= s_len b)%nat -> (s_off b + 2 <= length a)%nat ->
  bind (be_uint16 b) f h
  = f (Z.lor (a !!! (s_off b + 1)%nat)
             (Z.land (Z.shiftl (a !!! (s_off b + 0)%nat) 8) 65535)) h.
Proof.
  intros Ha Hl Hla. unfold be_uint16, index, ret, bind.
  destruct (Nat.ltb_spec 1 (s_len b)); [| lia].
  destruct (Nat.ltb_spec 0 (s_len b)); [| lia].
  rewrite Ha, (list_lookup_lookup_total_lt a (s_off b + 1)) by lia.
  rewrite Ha, (list_lookup_lookup_total_lt a (s_off b + 0)) by lia.
  reflexivity.
Qed.

Lemma contents_app_old (h : heap) (x : list Z) (w : slice) :
  (s_arr w < length h)%nat -> contents (h ++ [x]) w = contents h w.
Proof. intros Hw. unfold contents. by rewrite lookup_app_l. Qed.

Lemma bind_make_bytes {B : Type} (n : nat) (f : slice -> M B) (h : heap) :
  bind (make_bytes n) f h = f (mkSlice (length h) 0 n n) (h ++ [replicate n 0%Z]).
Proof. reflexivity. Qed.

(** [copy] of a 4-byte slice into a freshly made 4-byte array. *)
Lemma bind_copy_fresh4 {B : Type} (h : heap) (w : slice) (f : nat -> M B) :
  (s_arr w < length h)%nat -> s_len w = 4%nat -> length (contents h w) = 4%nat ->
  bind (copy_bytes (mkSlice (length h) 0 4 4) w) f (h ++ [replicate 4 0%Z])
  = f 4%nat (h ++ [contents h w]).
Proof.
  intros Hw Hl Hc. unfold bind, copy_bytes. cbn [s_arr s_off s_len].
  rewrite Hl, contents_app_old by done.
  rewrite lookup_app_r, Nat.sub_diag by lia. cbn.
  rewrite take_ge by lia.
  rewrite Hc. cbn. rewrite app_nil_r.
  rewrite insert_app_r_alt, Nat.sub_diag by lia. reflexivity.
Qed.

End GoFacts.

(** ** The Open message decoder, step by step *)
Module OpenFacts.
Import BGP BGP.ITLV.

(** On a well-formed buffer [b] of at least 29 bytes, with [bs] its bytes,
    [UnmarshalBGPOpenMessage] first makes [BGPID] (heap [h1]), copies
    [b[8:12]] into it (heap [h2]) and either fails on the type, the version
    or the optional-parameter slice, or returns the message. *)
Lemma open_unfold U (h : heap) (b : slice) (a : list Z) :
  h !! s_arr b = Some a -> (s_len b <= s_cap b)%nat ->
  (s_off b + s_cap b <= length a)%nat -> (29 <= s_len b)%nat ->
  let bs := contents h b in
  let h1 := h ++ [replicate 4 0%Z] in
  let h2 := h ++ [take 4 (drop 8 bs)] in
  let m tlvs := {| BGP.Length := to_int16 (Z.lor (bs !!! 1%nat) (Z.land (Z.shiftl (bs !!! 0%nat) 8) 65535));
                   BGP.Type' := bs !!! 2%nat; Version := bs !!! 3%nat;
                   MyAS := Z.lor (bs !!! 5%nat) (Z.land (Z.shiftl (bs !!! 4%nat) 8) 65535);
                   HoldTime := to_int16 (Z.lor (bs !!! 7%nat) (Z.land (Z.shiftl (bs !!! 6%nat) 8) 65535));
                   BGPID := mkSlice (length h) 0 4 4;
                   OptParamLen := bs !!! 12%nat; OptionalParameters := tlvs |} in
  UnmarshalBGPOpenMessage U b h =
  if negb (bs !!! 2%nat =? 1)%Z then
    Done (None, Some ("invalid message type " ++ pretty (bs !!! 2%nat) ++ " for BGP Open Message")%string) h1
  else if negb (bs !!! 3%nat =? 4)%Z then
    Done (None, Some ("invalid message version " ++ pretty (bs !!! 3%nat) ++ " for BGP Open Message")%string) h1
  else if negb (bs !!! 12%nat =? 0)%Z then
    if (13 + Z.to_nat (bs !!! 12%nat) <=? s_cap b)%nat then
      match U (mkSlice (s_arr b) (s_off b + 13) (Z.to_nat (bs !!! 12%nat)) (s_cap b - 13)) h2 with
      | Done (_, Some e) h3 => Done (None, Some e) h3
      | Done (tlvs, None) h3 => Done (Some (m tlvs), None) h3
      | Panic k h3 => Panic k h3
      end
    else Panic SliceBoundsOutOfRange h2
  else Done (Some (m []), None) h2.
Proof.
  intros Ha Hlc Hca Hlen bs h1 h2 m.
  assert (Hb : forall i, (i < 29)%nat -> bs !!! i = a !!! (s_off b + i)%nat).
  { intros i Hi. apply GoFacts.contents_lookup_total; [done | lia]. }
  assert (Ha1 : h1 !! s_arr b = Some a) by (apply GoFacts.lookup_app_old; done).
  assert (Hlt : (s_arr b < length h)%nat) by (eapply lookup_lt_Some; eauto).
  unfold UnmarshalBGPOpenMessage, BGPMinOpenMessageLength.
  destruct (Nat.ltb_spec (s_len b) 29); [lia |].
  rewrite GoFacts.bind_make_bytes. fold h1.
  rewrite GoFacts.bind_slice_lh by lia. cbv beta.
  rewrite (GoFacts.bind_be_uint16 _ _ a) by (cbn; first [exact Ha1 | lia]). cbv beta.
  rewrite (GoFacts.bind_index _ _ a) by (first [exact Ha1 | lia]). cbv beta.
  unfold m. rewrite !Hb by lia.
  destruct (a !!! (s_off b + 2)%nat =? 1)%Z; cbn [negb]; [| reflexivity].
  rewrite (GoFacts.bind_index _ _ a) by (first [exact Ha1 | lia]). cbv beta.
  destruct (a !!! (s_off b + 3)%nat =? 4)%Z; cbn [negb]; [| reflexivity].
  rewrite GoFacts.bind_slice_lh by lia. cbv beta.
  rewrite (GoFacts.bind_be_uint16 _ _ a) by (cbn; first [exact Ha1 | lia]). cbv beta.
  rewrite GoFacts.bind_slice_lh by lia. cbv beta.
  rewrite (GoFacts.bind_be_uint16 _ _ a) by (cbn; first [exact Ha1 | lia]). cbv beta.
  rewrite GoFacts.bind_slice_lh by lia. cbv beta.
  assert (Hbg : contents h (mkSlice (s_arr b) (s_off b + 8) (12 - 8) (s_cap b - 8))
                = take 4 (drop 8 bs)).
  { subst bs. unfold contents. cbn [s_arr s_off s_len]. rewrite Ha.
    rewrite (take_drop_commute (take (s_len b) _)), take_take.
    replace (Nat.min (8 + 4) (s_len b)) with (8 + 4)%nat by lia.
    rewrite <- take_drop_commute, drop_drop. reflexivity. }
  rewrite GoFacts.bind_copy_fresh4; cbn [s_arr s_len]; [| done | lia |].
  2:{ rewrite Hbg, length_take, length_drop.
      assert (length bs = s_len b) as -> by (eapply GoFacts.length_contents; eauto).
      lia. }
  rewrite Hbg. fold h2. cbv beta.
  assert (Ha2 : h2 !! s_arr b = Some a) by (apply GoFacts.lookup_app_old; done).
  rewrite (GoFacts.bind_index _ _ a) by (first [exact Ha2 | lia]). cbv beta.
  destruct (a !!! (s_off b + 12)%nat =? 0)%Z; cbn [negb].
  { cbn [s_off]. rewrite <- !Nat.add_assoc. cbn [Nat.add]. reflexivity. }
  destruct (Nat.leb_spec (13 + Z.to_nat (a !!! (s_off b + 12)%nat)) (s_cap b)).
  - rewrite GoFacts.bind_slice_lh by lia. cbv beta.
    replace (13 + Z.to_nat (a !!! (s_off b + 12)%nat) - 13)%nat
      with (Z.to_nat (a !!! (s_off b + 12)%nat)) by lia.
    cbn [s_off]. rewrite <- !Nat.add_assoc. cbn [Nat.add].
    unfold bind at 1.
    destruct (U _ h2) as [[tlvs [e|]] h3 | k h3]; reflexivity.
  - rewrite GoFacts.bind_slice_lh_out by lia. reflexivity.
Qed.

End OpenFacts.

(** ** Claims on [UnmarshalBGPOpenMessage] *)
Module OpenClaims.
Import BGP BGP.ITLV.

(** C4: a buffer shorter than [BGPMinOpenMessageLength] (29) fails with
    the length error "BGP Open Message length <len> is invalid", before any
    byte is read: the outcome depends on the length alone and the heap is
    left as it was. *)
Theorem open_short_buffer_error
    (U : slice -> M (list InformationalTLV * option string)) (h : heap) (b : slice) :
  (s_len b < BGPMinOpenMessageLength)%nat ->
  UnmarshalBGPOpenMessage U b h
  = Done (None, Some ("BGP Open Message length " ++ pretty (s_len b)
                      ++ " is invalid")%string) h.
Proof.
  intros Hl. unfold UnmarshalBGPOpenMessage.
  destruct (Nat.ltb_spec (s_len b) BGPMinOpenMessageLength); [reflexivity | lia].
Qed.

Lemma open_short_buffer_error_witness :
  (s_len (mkSlice 0 0 3 3) < BGPMinOpenMessageLength)%nat /\
  UnmarshalBGPOpenMessage SpecTLV.UnmarshalBGPTLV (mkSlice 0 0 3 3) [[0; 3; 1]%Z]
  = Done (None, Some ("BGP Open Message length " ++ pretty 3%nat
                      ++ " is invalid")%string) [[0; 3; 1]%Z].
Proof.
  split; [cbv; lia |].
  apply (open_short_buffer_error SpecTLV.UnmarshalBGPTLV [[0; 3; 1]%Z] (mkSlice 0 0 3 3)).
  cbv; lia.
Defined.

(** C5: on a well-formed buffer of at least 29 bytes, a type byte (offset
    2) other than 1 gives the error "invalid message type <type> for BGP
    Open Message"; with type 1, a version byte (offset 3) other than 4 gives
    "invalid message version <version> for BGP Open Message". *)
Theorem open_type_version_errors
    (U : slice -> M (list InformationalTLV * option string)) (h : heap) (b : slice) :
  slice_wf h b -> (29 <= s_len b)%nat ->
  (contents h b !!! 2%nat <> 1%Z ->
   exists h', UnmarshalBGPOpenMessage U b h
   = Done (None, Some ("invalid message type " ++ pretty (contents h b !!! 2%nat)
                       ++ " for BGP Open Message")%string) h') /\
  (contents h b !!! 2%nat = 1%Z -> contents h b !!! 3%nat <> 4%Z ->
   exists h', UnmarshalBGPOpenMessage U b h
   = Done (None, Some ("invalid message version " ++ pretty (contents h b !!! 3%nat)
                       ++ " for BGP Open Message")%string) h').
Proof.
  intros (a & Ha & Hlc & Hca) Hl.
  rewrite (OpenFacts.open_unfold U h b a Ha Hlc Hca Hl). cbv zeta.
  split.
  - intros Ht. destruct (Z.eqb_spec (contents h b !!! 2%nat) 1); [done |].
    eexists. reflexivity.
  - intros Ht Hv. destruct (Z.eqb_spec (contents h b !!! 2%nat) 1); [| done].
    destruct (Z.eqb_spec (contents h b !!! 3%nat) 4); [done |].
    eexists. reflexivity.
Qed.

Lemma open_type_version_errors_witness :
  slice_wf [open_buf 3 4 0] (mkSlice 0 0 29 29) /\
  exists h', UnmarshalBGPOpenMessage SpecTLV.UnmarshalBGPTLV (mkSlice 0 0 29 29)
               [open_buf 3 4 0]
  = Done (None, Some ("invalid message type " ++ pretty 3%Z
                      ++ " for BGP Open Message")%string) h'.
Proof.
  assert (Hwf : slice_wf [open_buf 3 4 0] (mkSlice 0 0 29 29)).
  { exists (open_buf 3 4 0). split; [reflexivity | cbv; lia]. }
  split; [exact Hwf |].
  apply (proj1 (open_type_version_errors SpecTLV.UnmarshalBGPTLV _ _ Hwf
                  ltac:(cbv; lia))).
  vm_compute. discriminate.
Defined.

(** C10: on a well-formed buffer of at least 29 bytes with type 1 and
    version 4 whose optional-parameter region decodes (no region, or the
    slice [b[13:13+opl]] fits the capacity and the TLV decoder returns a nil
    error on it, called on the heap where [BGPID] has been made and filled
    with [b[8:12]]), the decoder succeeds whatever the 2-byte Length field
    holds, and stores it verbatim (as Go's [int16]): it is never compared
    with [len(b)]. *)
Theorem open_length_field_unchecked
    (U : slice -> M (list InformationalTLV * option string)) (h : heap) (b : slice) :
  slice_wf h b -> (29 <= s_len b)%nat ->
  contents h b !!! 2%nat = 1%Z -> contents h b !!! 3%nat = 4%Z ->
  (contents h b !!! 12%nat = 0%Z \/
   ((13 + Z.to_nat (contents h b !!! 12%nat) <= s_cap b)%nat /\
    exists tlvs h3,
      U (mkSlice (s_arr b) (s_off b + 13) (Z.to_nat (contents h b !!! 12%nat))
                 (s_cap b - 13))
        (h ++ [take 4 (drop 8 (contents h b))]) = Done (tlvs, None) h3)) ->
  exists m h', UnmarshalBGPOpenMessage U b h = Done (Some m, None) h' /\
    BGP.Length m = to_int16 (Z.lor (contents h b !!! 1%nat)
                     (Z.land (Z.shiftl (contents h b !!! 0%nat) 8) 65535)).
Proof.
  intros (a & Ha & Hlc & Hca) Hl Ht Hv Hopt.
  rewrite (OpenFacts.open_unfold U h b a Ha Hlc Hca Hl). cbv zeta.
  rewrite Ht, Hv. cbn [Z.eqb negb Pos.eqb].
  destruct Hopt as [H0 | (Hc & tlvs & h3 & HU)].
  - rewrite H0. cbn. eauto.
  - destruct (Z.eqb_spec (contents h b !!! 12%nat) 0) as [H0 | H0].
    + cbn. eauto.
    + cbn [negb]. destruct (Nat.leb_spec (13 + Z.to_nat (contents h b !!! 12%nat)) (s_cap b));
        [| lia].
      rewrite HU. eauto.
Qed.

Lemma open_length_field_unchecked_witness :
  slice_wf [[3; 232]%Z ++ drop 2 (open_buf 1 4 0)] (mkSlice 0 0 29 29) /\
  exists m h', UnmarshalBGPOpenMessage SpecTLV.UnmarshalBGPTLV (mkSlice 0 0 29 29)
                 [[3; 232]%Z ++ drop 2 (open_buf 1 4 0)] = Done (Some m, None) h' /\
               BGP.Length m = 1000%Z.
Proof.
  assert (Hwf : slice_wf [[3; 232]%Z ++ drop 2 (open_buf 1 4 0)] (mkSlice 0 0 29 29)).
  { eexists. split; [reflexivity | cbv; lia]. }
  split; [exact Hwf |].
  destruct (open_length_field_unchecked SpecTLV.UnmarshalBGPTLV _ _ Hwf
              ltac:(cbv; lia) eq_refl eq_refl (or_introl eq_refl))
    as (m & h' & Hd & Hlen).
  exists m, h'. split; [exact Hd |]. rewrite Hlen. vm_compute. reflexivity.
Defined.

End OpenClaims.

(** ** The MSD loop *)
Module MSDFacts.
Import Base.

Lemma index_contents (h : heap) (b : slice) (i : nat) :
  slice_wf h b -> (i < s_len b)%nat -> index b i h = Done (contents h b !!! i) h.
Proof.
  intros (a & Ha & Hlc & Hca) Hi. unfold index.
  destruct (Nat.ltb_spec i (s_len b)); [| lia].
  rewrite Ha, (list_lookup_lookup_total_lt a) by lia.
  by rewrite (GoFacts.contents_lookup_total h b a i Ha Hi).
Qed.

Lemma index_past_len (h : heap) (b : slice) (i : nat) :
  (s_len b <= i)%nat -> index b i h = Panic IndexOutOfRange h.
Proof.
  intros Hi. unfold index. by destruct (Nat.ltb_spec i (s_len b)); [lia |].
Qed.

(** The pairs of a byte list, two bytes at a time; a last odd byte is left. *)
Fixpoint pairs (bs : list Z) : list MSDTV :=
  match bs with
  | t :: v :: rest => {| Type' := t; Value := v |} :: pairs rest
  | _ => []
  end.

Lemma drop_cons2 (bs : list Z) (p : nat) :
  (p + 2 <= length bs)%nat ->
  drop p bs = bs !!! p :: bs !!! (p + 1)%nat :: drop (p + 2) bs.
Proof.
  revert bs. induction p as [| p IH]; intros bs Hl.
  - destruct bs as [| x [| y r]]; cbn in *; [lia | lia | reflexivity].
  - destruct bs as [| x r]; cbn in *; [lia |]. apply IH. lia.
Qed.

(** From [p] with [len(b) = p + 2k], the loop reads the [k] remaining
    pairs without touching the heap. *)
Lemma loop_even (h : heap) (b : slice) (k p fuel : nat) (tvs : list MSDTV) :
  slice_wf h b -> (p + 2 * k = s_len b)%nat -> (k <= fuel)%nat ->
  UnmarshalMSDTV_loop fuel b p tvs h = Done (tvs ++ pairs (drop p (contents h b))) h.
Proof.
  intros Hwf. pose proof Hwf as (a & Ha & Hlc & Hca).
  assert (Hlen : length (contents h b) = s_len b) by (eapply GoFacts.length_contents; eauto).
  revert p fuel tvs. induction k as [| k IH]; intros p fuel tvs Hp Hf.
  - rewrite drop_ge by lia. rewrite app_nil_r.
    destruct fuel as [| fuel]; [reflexivity |]. cbn [UnmarshalMSDTV_loop].
    by destruct (Nat.ltb_spec p (s_len b)); [lia |].
  - destruct fuel as [| fuel]; [lia |]. cbn [UnmarshalMSDTV_loop].
    destruct (Nat.ltb_spec p (s_len b)); [| lia].
    unfold bind at 1. rewrite index_contents by (done || lia).
    unfold bind at 1. rewrite index_contents by (done || lia).
    rewrite IH by lia.
    rewrite (drop_cons2 (contents h b) p) by lia.
    cbn [pairs]. by rewrite <- app_assoc.
Qed.

(** From [p] with [len(b) = p + 2k + 1], the loop panics at [b[len(b)]]. *)
Lemma loop_odd (h : heap) (b : slice) (k p fuel : nat) (tvs : list MSDTV) :
  slice_wf h b -> (p + 2 * k + 1 = s_len b)%nat -> (k + 1 <= fuel)%nat ->
  UnmarshalMSDTV_loop fuel b p tvs h = Panic IndexOutOfRange h.
Proof.
  intros Hwf. revert p fuel tvs. induction k as [| k IH]; intros p fuel tvs Hp Hf.
  - destruct fuel as [| fuel]; [lia |]. cbn [UnmarshalMSDTV_loop].
    destruct (Nat.ltb_spec p (s_len b)); [| lia].
    unfold bind at 1. rewrite index_contents by (done || lia).
    unfold bind at 1. rewrite index_past_len by lia. reflexivity.
  - destruct fuel as [| fuel]; [lia |]. cbn [UnmarshalMSDTV_loop].
    destruct (Nat.ltb_spec p (s_len b)); [| lia].
    unfold bind at 1. rewrite index_contents by (done || lia).
    unfold bind at 1. rewrite index_contents by (done || lia).
    apply IH; lia.
Qed.

Lemma pairs_lookup (bs : list Z) (i : nat) :
  (2 * i + 1 < length bs)%nat ->
  pairs bs !! i = Some {| Type' := bs !!! (2 * i)%nat; Value := bs !!! (2 * i + 1)%nat |}.
Proof.
  revert bs. induction i as [| i IH]; intros bs Hl.
  - destruct bs as [| x [| y r]]; cbn in *; [lia | lia | reflexivity].
  - destruct bs as [| x [| y r]]; cbn in Hl; [lia | lia |].
    cbn [pairs lookup list_lookup]. rewrite IH by lia.
    replace (2 * S i)%nat with (S (S (2 * i))) by lia.
    replace (S (S (2 * i)) + 1)%nat with (S (S (2 * i + 1))) by lia.
    reflexivity.
Qed.

Lemma length_pairs (bs : list Z) (n : nat) :
  length bs = (2 * n)%nat -> length (pairs bs) = n.
Proof.
  revert bs. induction n as [| n IH]; intros bs Hl.
  - destruct bs; cbn in *; [reflexivity | lia].
  - destruct bs as [| x [| y r]]; cbn in *; [lia | lia |]. f_equal. apply IH. lia.
Qed.

End MSDFacts.

(** ** Claims on [UnmarshalMSDTV] *)
Module MSDClaims.
Import Base MSDFacts.

(** C3: on a well-formed buffer of even length [2n], [UnmarshalMSDTV]
    returns a nil error and exactly [n] pairs, the [i]-th with [Type] byte
    [2i] and [Value] byte [2i+1], leaving the heap unchanged. *)
Theorem msdtv_even_pairs (h : heap) (b : slice) (n : nat) :
  slice_wf h b -> s_len b = (2 * n)%nat ->
  exists tvs, UnmarshalMSDTV b h = Done (tvs, None) h /\
    length tvs = n /\
    forall i, (i < n)%nat ->
      tvs !! i = Some {| Type' := contents h b !!! (2 * i)%nat;
                         Value := contents h b !!! (2 * i + 1)%nat |}.
Proof.
  intros Hwf Hn. pose proof Hwf as (a & Ha & Hlc & Hca).
  assert (Hlen : length (contents h b) = s_len b) by (eapply GoFacts.length_contents; eauto).
  exists (pairs (contents h b)). split; [| split].
  - unfold UnmarshalMSDTV, bind at 1.
    rewrite (loop_even h b n 0 (s_len b) []) by (done || lia). reflexivity.
  - apply length_pairs. lia.
  - intros i Hi. apply pairs_lookup. lia.
Qed.

Lemma msdtv_even_pairs_witness :
  slice_wf [[1; 2; 3; 4]%Z] (mkSlice 0 0 4 4) /\
  exists tvs, UnmarshalMSDTV (mkSlice 0 0 4 4) [[1; 2; 3; 4]%Z]
              = Done (tvs, None) [[1; 2; 3; 4]%Z] /\
    length tvs = 2%nat /\
    forall i, (i < 2)%nat ->
      tvs !! i = Some {| Type' := [1; 2; 3; 4]%Z !!! (2 * i)%nat;
                         Value := [1; 2; 3; 4]%Z !!! (2 * i + 1)%nat |}.
Proof.
  assert (Hwf : slice_wf [[1; 2; 3; 4]%Z] (mkSlice 0 0 4 4)).
  { eexists. split; [reflexivity | cbv; lia]. }
  split; [exact Hwf |].
  exact (msdtv_even_pairs [[1; 2; 3; 4]%Z] (mkSlice 0 0 4 4) 2 Hwf eq_refl).
Defined.

(** C2 (fails on the code): on an odd-length buffer the loop reads
    [b[len(b)]] and Go panics (index out of range); [UnmarshalMSDTV] never
    returns a non-nil error.  Shown on every well-formed odd buffer, on the
    one-byte buffer [07], and for every call that returns. *)
Theorem msdtv_odd_length_panics :
  (forall (h : heap) (b : slice) (n : nat),
     slice_wf h b -> s_len b = (2 * n + 1)%nat ->
     UnmarshalMSDTV b h = Panic IndexOutOfRange h) /\
  UnmarshalMSDTV (mkSlice 0 0 1 1) [[7]%Z] = Panic IndexOutOfRange [[7]%Z] /\
  (forall (h : heap) (b : slice) r h',
     UnmarshalMSDTV b h = Done r h' -> snd r = None).
Proof.
  split; [| split].
  - intros h b n Hwf Hn. unfold UnmarshalMSDTV, bind at 1.
    rewrite (loop_odd h b n 0 (s_len b) []) by (done || lia). reflexivity.
  - reflexivity.
  - intros h b r h'. unfold UnmarshalMSDTV, bind.
    destruct (UnmarshalMSDTV_loop (s_len b) b 0 [] h); cbn; intros Hr; inversion Hr; reflexivity.
Qed.

End MSDClaims.

(** ** Claims on [UnmarshalSRLocalBlock] *)
Module LocalBlockClaims.
Import SR.

(** C7: on a well-formed buffer of at least 2 bytes whose sub-TLV region
    [b[2:]] decodes with a nil error to [tlvs], [UnmarshalSRLocalBlock]
    returns the [LocalBlock] with [Flags] = byte 0 and [TLV] = [tlvs]; the
    record has no other field, so the reserved byte 1 is not kept. *)
Theorem localblock_flags_and_tlvs {LBT : Type}
    (ULB : slice -> M (list LBT * option string)) (h : heap) (b : slice)
    (tlvs : list LBT) (h' : heap) :
  slice_wf h b -> (2 <= s_len b)%nat ->
  ULB (mkSlice (s_arr b) (s_off b + 2) (s_len b - 2) (s_cap b - 2)) h = Done (tlvs, None) h' ->
  UnmarshalSRLocalBlock LBT ULB b h
  = Done (Some {| Flags := contents h b !!! 0%nat; TLV := tlvs |}, None) h'.
Proof.
  intros Hwf Hl HU. pose proof Hwf as (a & Ha & Hlc & Hca).
  unfold UnmarshalSRLocalBlock, bind at 1.
  rewrite MSDFacts.index_contents by (done || lia).
  unfold slice_from. rewrite GoFacts.bind_slice_lh by lia.
  unfold bind. rewrite HU. reflexivity.
Qed.

Lemma localblock_flags_and_tlvs_witness :
  slice_wf [[1; 0; 8; 0]%Z] (mkSlice 0 0 4 4) /\
  UnmarshalSRLocalBlock _ SpecTLV.UnmarshalBGPTLV (mkSlice 0 0 4 4) [[1; 0; 8; 0]%Z]
  = Done (Some {| Flags := 1%Z;
                  TLV := [{| BGP.ITLV.Type' := 8; BGP.ITLV.Length := 0;
                             BGP.ITLV.Value := [] |}] |}, None) [[1; 0; 8; 0]%Z].
Proof.
  assert (Hwf : slice_wf [[1; 0; 8; 0]%Z] (mkSlice 0 0 4 4)).
  { eexists. split; [reflexivity | cbv; lia]. }
  split; [exact Hwf |].
  exact (localblock_flags_and_tlvs SpecTLV.UnmarshalBGPTLV _ _ _ _ Hwf
           ltac:(cbv; lia) eq_refl).
Defined.

End LocalBlockClaims.

(** ** Frame and result-shape reasoning over the monad *)
Module Frame.

(** [m] may grow the heap but leaves every existing array [i] with [P i]
    as it was, whether it returns or panics. *)
Definition keeps {A : Type} (P : nat -> Prop) (m : M A) : Prop :=
  forall h, (length h <= length (out_heap (m h)))%nat /\
    forall i, (i < length h)%nat -> P i -> out_heap (m h) !! i = h !! i.

(** Every value [m] returns satisfies [Q]. *)
Definition post {A : Type} (Q : A -> Prop) (m : M A) : Prop :=
  forall h, match m h with Done a _ => Q a | Panic _ _ => True end.

Lemma keeps_mono {A : Type} (P P' : nat -> Prop) (m : M A) :
  (forall i, P' i -> P i) -> keeps P m -> keeps P' m.
Proof. intros HP Hm h. destruct (Hm h) as [Hl Hi]. split; [done |]. eauto. Qed.

Lemma keeps_ret {A : Type} (P : nat -> Prop) (a : A) : keeps P (ret a).
Proof. intros h. split; [done | reflexivity]. Qed.

Lemma keeps_bind {A B : Type} (P : nat -> Prop) (m : M A) (f : A -> M B) :
  keeps P m -> (forall a, keeps P (f a)) -> keeps P (bind m f).
Proof.
  intros Hm Hf h. unfold bind. destruct (Hm h) as [Hl Hi].
  destruct (m h) as [a h1 | k h1] eqn:E; cbn in *; [| done].
  destruct (Hf a h1) as [Hl' Hi']. split; [lia |].
  intros i Hlt HP. rewrite Hi' by (done || lia). eauto.
Qed.

Lemma keeps_index (P : nat -> Prop) (b : slice) (i : nat) : keeps P (index b i).
Proof.
  intros h. unfold index.
  destruct (i <? s_len b)%nat; [| done].
  destruct (h !! s_arr b); [| done].
  destruct (_ !! _); done.
Qed.

Lemma keeps_slice_lh (P : nat -> Prop) (b : slice) (lo hi : nat) : keeps P (slice_lh b lo hi).
Proof. intros h. unfold slice_lh. by destruct (_ && _). Qed.

Lemma keeps_be_uint16 (P : nat -> Prop) (b : slice) : keeps P (be_uint16 b).
Proof.
  unfold be_uint16. apply keeps_bind; [apply keeps_index | intros].
  apply keeps_bind; [apply keeps_index | intros]. apply keeps_ret.
Qed.

(** [copy] writes only into its destination array. *)
Lemma keeps_copy (dst src : slice) :
  keeps (fun i => i <> s_arr dst) (copy_bytes dst src).
Proof.
  intros h. unfold copy_bytes. destruct (h !! s_arr dst); cbn; [| done].
  rewrite length_insert. split; [done |].
  intros i Hi Hne. by rewrite list_lookup_insert_ne.
Qed.

Lemma post_ret {A : Type} (Q : A -> Prop) (a : A) : Q a -> post Q (ret a).
Proof. intros Hq h. exact Hq. Qed.

Lemma post_bind {A B : Type} (Q : B -> Prop) (m : M A) (f : A -> M B) :
  (forall a, post Q (f a)) -> post Q (bind m f).
Proof.
  intros Hf h. unfold bind. destruct (m h) as [a h1 | k h1]; [apply Hf | done].
Qed.

(** A freshly made array may be written by the continuation. *)
Lemma keeps_bind_make {B : Type} (P : nat -> Prop) (n : nat) (f : slice -> M B) :
  (forall j, keeps (fun i => i <> j) (f (mkSlice j 0 n n))) ->
  keeps P (bind (make_bytes n) f).
Proof.
  intros Hf h. rewrite GoFacts.bind_make_bytes.
  destruct (Hf (length h) (h ++ [replicate n 0%Z])) as [Hl Hi].
  rewrite length_app in Hl. cbn in Hl. split; [lia |].
  intros i Hlt _. rewrite Hi by (rewrite ?length_app; cbn; lia).
  by rewrite lookup_app_l.
Qed.

Ltac keeps_tac HU :=
  repeat match goal with
  | |- keeps _ (ret _) => apply keeps_ret
  | |- keeps _ (bind (index _ _) _) => apply keeps_bind; [apply keeps_index | intros]
  | |- keeps _ (bind (slice_lh _ _ _) _) =>
      apply keeps_bind; [apply keeps_slice_lh | intros]
  | |- keeps _ (bind (be_uint16 _) _) =>
      apply keeps_bind; [apply keeps_be_uint16 | intros]
  | |- keeps _ (bind (copy_bytes _ _) _) =>
      apply keeps_bind; [eapply keeps_mono; [| apply keeps_copy]; cbn; done | intros]
  | |- keeps _ (bind (make_bytes _) _) => apply keeps_bind_make; intros
  | |- keeps _ (bind _ _) =>
      apply keeps_bind; [eapply keeps_mono; [| apply HU]; done | intros]
  | |- keeps _ (if ?c then _ else _) => destruct c
  | |- keeps _ (match ?x with _ => _ end) => destruct x
  end.

Ltac post_tac :=
  repeat match goal with
  | |- post _ (ret _) => apply post_ret
  | |- post _ (bind _ _) => apply post_bind; intros
  | |- post _ (if ?c then _ else _) => destruct c
  | |- post _ (match ?x with _ => _ end) => destruct x
  end.

End Frame.

(** ** Frames and result shapes of the three decoders *)
Module DecoderFrames.
Import Frame BGP BGP.ITLV SR Base.

Lemma open_keeps (U : slice -> M (list InformationalTLV * option string)) (b : slice) :
  (forall s, keeps (fun _ => True) (U s)) ->
  keeps (fun _ => True) (UnmarshalBGPOpenMessage U b).
Proof.
  intros HU. unfold UnmarshalBGPOpenMessage.
  destruct (s_len b <? BGPMinOpenMessageLength)%nat; keeps_tac HU.
Qed.

Lemma localblock_keeps {LBT : Type} (ULB : slice -> M (list LBT * option string))
    (b : slice) :
  (forall s, keeps (fun _ => True) (ULB s)) ->
  keeps (fun _ => True) (UnmarshalSRLocalBlock LBT ULB b).
Proof.
  intros HU. unfold UnmarshalSRLocalBlock, slice_from. keeps_tac HU.
Qed.

Lemma msdtv_loop_keeps (fuel : nat) (b : slice) (p : nat) (tvs : list MSDTV) :
  keeps (fun _ => True) (UnmarshalMSDTV_loop fuel b p tvs).
Proof.
  revert p tvs. induction fuel as [| fuel IH]; intros p tvs; cbn [UnmarshalMSDTV_loop].
  - apply keeps_ret.
  - destruct (p <? s_len b)%nat; [| apply keeps_ret].
    apply keeps_bind; [apply keeps_index | intros].
    apply keeps_bind; [apply keeps_index | intros]. apply IH.
Qed.

Lemma msdtv_keeps (b : slice) : keeps (fun _ => True) (UnmarshalMSDTV b).
Proof.
  unfold UnmarshalMSDTV. apply keeps_bind; [apply msdtv_loop_keeps | intros].
  apply keeps_ret.
Qed.

(** The Go pair [(object, error)] a decoder returns: a non-nil object with
    a nil error, or a nil object with a non-nil error. *)
Definition obj_xor_err {T : Type} (r : option T * option string) : Prop :=
  (exists o, r = (Some o, None)) \/ (exists e, r = (None, Some e)).

Lemma open_shape (U : slice -> M (list InformationalTLV * option string)) (b : slice) :
  post obj_xor_err (UnmarshalBGPOpenMessage U b).
Proof.
  unfold UnmarshalBGPOpenMessage, obj_xor_err.
  destruct (s_len b <? BGPMinOpenMessageLength)%nat; post_tac; eauto.
Qed.

Lemma localblock_shape {LBT : Type} (ULB : slice -> M (list LBT * option string))
    (b : slice) :
  post obj_xor_err (UnmarshalSRLocalBlock LBT ULB b).
Proof. unfold UnmarshalSRLocalBlock, obj_xor_err. post_tac; eauto. Qed.

(** The spec-modelled scanner only reads. *)
Lemma spec_tlv_keeps (s : slice) : keeps (fun _ => True) (SpecTLV.UnmarshalBGPTLV s).
Proof.
  intros h. unfold SpecTLV.UnmarshalBGPTLV.
  destruct (SpecTLV.scan (contents h s)); cbn; split; done.
Qed.

End DecoderFrames.

(** ** Claims on all decoders *)
Module DecoderClaims.
Import Frame DecoderFrames BGP BGP.ITLV SR Base.

(** C9: no decoder writes into the input buffer's array, whether it
    returns or panics, given that the TLV scanners it calls (not among the
    sources) leave every existing array alone, as the spec requires of
    them ("never mutated").  [UnmarshalBGPOpenMessage] writes only into the
    [BGPID] array it makes; the other two write nothing. *)
Theorem decoders_keep_input_buffer
    (U : slice -> M (list InformationalTLV * option string))
    {LBT : Type} (ULB : slice -> M (list LBT * option string))
    (h : heap) (b : slice) :
  (forall s, keeps (fun _ => True) (U s)) ->
  (forall s, keeps (fun _ => True) (ULB s)) ->
  (s_arr b < length h)%nat ->
  out_heap (UnmarshalBGPOpenMessage U b h) !! s_arr b = h !! s_arr b /\
  out_heap (UnmarshalSRLocalBlock LBT ULB b h) !! s_arr b = h !! s_arr b /\
  out_heap (UnmarshalMSDTV b h) !! s_arr b = h !! s_arr b.
Proof.
  intros HU HULB Hb. split; [| split].
  - apply (open_keeps U b HU h); done.
  - apply (localblock_keeps ULB b HULB h); done.
  - apply (msdtv_keeps b h); done.
Qed.

Lemma decoders_keep_input_buffer_witness :
  (forall s, keeps (fun _ => True) (SpecTLV.UnmarshalBGPTLV s)) /\
  (s_arr (mkSlice 0 0 29 29) < length [open_buf 1 4 0])%nat /\
  out_heap (UnmarshalBGPOpenMessage SpecTLV.UnmarshalBGPTLV (mkSlice 0 0 29 29)
              [open_buf 1 4 0]) !! 0%nat = Some (open_buf 1 4 0) /\
  out_heap (UnmarshalSRLocalBlock _ SpecTLV.UnmarshalBGPTLV (mkSlice 0 0 29 29)
              [open_buf 1 4 0]) !! 0%nat = Some (open_buf 1 4 0) /\
  out_heap (UnmarshalMSDTV (mkSlice 0 0 29 29) [open_buf 1 4 0]) !! 0%nat
  = Some (open_buf 1 4 0).
Proof.
  split; [exact spec_tlv_keeps |]. split; [cbv; lia |].
  exact (decoders_keep_input_buffer SpecTLV.UnmarshalBGPTLV SpecTLV.UnmarshalBGPTLV
           [open_buf 1 4 0] (mkSlice 0 0 29 29) spec_tlv_keeps spec_tlv_keeps
           ltac:(cbv; lia)).
Defined.

(** C1 (fails on the code): the decoders do not check every read against
    the buffer end.  [UnmarshalBGPOpenMessage] slices [b[13:13+opl]] with
    the optional-parameter length [opl] unchecked: with [opl = 255] on a
    29-byte buffer Go panics (slice bounds out of range), whatever the TLV
    scanner; when the capacity exceeds the length the slice reaches bytes
    past [len(b)] and they are decoded as optional parameters.
    [UnmarshalSRLocalBlock] reads [b[0]] and slices [b[2:]] unchecked: it
    panics on the empty and on a one-byte buffer. *)
Theorem decoders_read_past_end :
  (forall U : slice -> M (list InformationalTLV * option string),
     UnmarshalBGPOpenMessage U (mkSlice 0 0 29 29) [open_buf 1 4 255]
     = Panic SliceBoundsOutOfRange [open_buf 1 4 255; [10; 0; 0; 1]%Z]) /\
  (exists m h',
     UnmarshalBGPOpenMessage SpecTLV.UnmarshalBGPTLV (mkSlice 0 0 29 33)
       [open_buf 1 4 20 ++ [2; 2; 65; 0]%Z] = Done (Some m, None) h' /\
     last (OptionalParameters m)
     = Some {| BGP.ITLV.Type' := 2; BGP.ITLV.Length := 2; BGP.ITLV.Value := [65; 0]%Z |}) /\
  (forall (LBT : Type) (ULB : slice -> M (list LBT * option string)),
     UnmarshalSRLocalBlock LBT ULB (mkSlice 0 0 0 0) [[]]
     = Panic IndexOutOfRange [[]]) /\
  (forall (LBT : Type) (ULB : slice -> M (list LBT * option string)),
     UnmarshalSRLocalBlock LBT ULB (mkSlice 0 0 1 1) [[1]%Z]
     = Panic SliceBoundsOutOfRange [[1]%Z]).
Proof.
  split; [| split; [| split]].
  - intros U. reflexivity.
  - eexists _, _. split; [vm_compute; reflexivity | reflexivity].
  - intros LBT ULB. reflexivity.
  - intros LBT ULB. reflexivity.
Qed.

(** C8 (fails on the code, same defect as C1): [UnmarshalSRLocalBlock]
    returns nothing on the empty buffer (it panics); every call of either
    decoder that returns gives a non-nil object with a nil error or a nil
    object with a non-nil error. *)
Theorem decoders_object_or_error :
  (forall (LBT : Type) (ULB : slice -> M (list LBT * option string)),
     UnmarshalSRLocalBlock LBT ULB (mkSlice 0 0 0 0) [[]]
     = Panic IndexOutOfRange [[]]) /\
  (forall (U : slice -> M (list InformationalTLV * option string)) h b r h',
     UnmarshalBGPOpenMessage U b h = Done r h' -> obj_xor_err r) /\
  (forall (LBT : Type) (ULB : slice -> M (list LBT * option string)) h b r h',
     UnmarshalSRLocalBlock LBT ULB b h = Done r h' -> obj_xor_err r).
Proof.
  split; [| split].
  - intros LBT ULB. reflexivity.
  - intros U h b r h' Hr. pose proof (open_shape U b h) as Hs.
    rewrite Hr in Hs. exact Hs.
  - intros LBT ULB h b r h' Hr. pose proof (localblock_shape ULB b h) as Hs.
    rewrite Hr in Hs. exact Hs.
Qed.

End DecoderClaims.

(** ** Claims on [Is4BytesASCapable] *)
Module CapabilityClaims.
Import BGP BGP.ITLV.

(** C6 as stated fails: the Open message [open_two_caps] decodes, one of
    its capability parameters holds code 65 with value [00 00 00 01], and
    yet [Is4BytesASCapable] answers (0, false): the first capability
    parameter, which decodes but lacks code 65, decides. *)
Lemma is4bytes_later_capability_ignored :
  exists m h',
    UnmarshalBGPOpenMessage SpecTLV.UnmarshalBGPTLV (mkSlice 0 0 29 29) [open_two_caps]
    = Done (Some m, None) h' /\
    (exists t caps, In t (OptionalParameters m) /\ ITLV.Type' t = 2%Z /\
       SpecTLV.UnmarshalBGPCapability (ITLV.Value t) = (caps, None) /\
       SpecTLV.cap_lookup caps 65%Z = Some [0; 0; 0; 1]%Z) /\
    Is4BytesASCapable _ SpecTLV.cap_lookup SpecTLV.UnmarshalBGPCapability m
    = Returns (0%Z, false).
Proof.
  eexists _, _. split; [vm_compute; reflexivity |].
  split; [| vm_compute; reflexivity].
  eexists _, _. split; [right; left; reflexivity |].
  split; [reflexivity |]. split; vm_compute; reflexivity.
Qed.

(** C6, amended: the first type-2 optional parameter whose capability
    decoding succeeds decides.  If its capabilities hold code 65 with the
    4-byte value [00 00 00 01], [Is4BytesASCapable] returns (1, true); if
    they lack code 65, it returns (0, false).  Parameters before it are of
    another type or fail to decode. *)
Theorem is4bytes_first_decoded_capability
    {Capability : Type} (cap_lookup : Capability -> Z -> option (list Z))
    (UnmarshalBGPCapability : list Z -> Capability * option string)
    (m : OpenMessage) (pre post : list InformationalTLV) (t : InformationalTLV)
    (caps : Capability) :
  OptionalParameters m = pre ++ t :: post ->
  Forall (fun t' => ITLV.Type' t' <> 2%Z \/
                    exists c e, UnmarshalBGPCapability (ITLV.Value t') = (c, Some e)) pre ->
  ITLV.Type' t = 2%Z -> UnmarshalBGPCapability (ITLV.Value t) = (caps, None) ->
  (cap_lookup caps 65%Z = Some [0; 0; 0; 1]%Z ->
   Is4BytesASCapable _ cap_lookup UnmarshalBGPCapability m = Returns (1%Z, true)) /\
  (cap_lookup caps 65%Z = None ->
   Is4BytesASCapable _ cap_lookup UnmarshalBGPCapability m = Returns (0%Z, false)).
Proof.
  intros Hm Hpre Ht Hdec. unfold Is4BytesASCapable. rewrite Hm. clear Hm.
  induction Hpre as [| t' pre' Ht' Hpre' IH]; cbn [app Is4BytesASCapable_loop].
  - rewrite Ht. cbn [Z.eqb negb Pos.eqb]. rewrite Hdec.
    split; intros Hc; rewrite Hc; reflexivity.
  - destruct Ht' as [Hne | (c & e & He)].
    + destruct (Z.eqb_spec (ITLV.Type' t') 2); [done |]. exact IH.
    + destruct (Z.eqb_spec (ITLV.Type' t') 2); cbn [negb]; [| exact IH].
      rewrite He. exact IH.
Qed.

Lemma is4bytes_first_decoded_capability_witness :
  let t := {| ITLV.Type' := 2; ITLV.Length := 6; ITLV.Value := [65; 4; 0; 0; 0; 1]%Z |} in
  let m := {| BGP.Length := 29; BGP.Type' := 1; Version := 4; MyAS := 1; HoldTime := 90;
              BGPID := mkSlice 1 0 4 4; OptParamLen := 8;
              OptionalParameters := [t] |} in
  Is4BytesASCapable _ SpecTLV.cap_lookup SpecTLV.UnmarshalBGPCapability m
  = Returns (1%Z, true).
Proof.
  intros t m.
  apply (is4bytes_first_decoded_capability SpecTLV.cap_lookup SpecTLV.UnmarshalBGPCapability
           m [] [] t [(65%Z, [0; 0; 0; 1]%Z)] eq_refl (Forall_nil_2 _) eq_refl eq_refl).
  reflexivity.
Defined.

End CapabilityClaims.

(** ** Big-endian byte arithmetic *)
Module ByteArith.

Definition is_byte (x : Z) : Prop := (0 <= x < 256)%Z.

Lemma lor_shiftl_add (a b k : Z) :
  (0 <= k)%Z -> (0 <= a < 2^k)%Z -> Z.lor a (Z.shiftl b k) = (a + b * 2^k)%Z.
Proof.
  intros Hk Ha.
  assert (H0 : Z.land a (Z.shiftl b k) = 0%Z).
  { apply Z.bits_inj'. intros n Hn. rewrite Z.land_spec, Z.bits_0.
    destruct (Z.ltb_spec n k).
    - rewrite Z.shiftl_spec_low by lia. apply andb_false_r.
    - rewrite <- (Z.mod_small a (2^k)) by lia.
      rewrite Z.mod_pow2_bits_high by lia. reflexivity. }
  rewrite <- Z.lxor_lor by exact H0. rewrite <- Z.add_nocarry_lxor by exact H0.
  rewrite Z.shiftl_mul_pow2 by lia. reflexivity.
Qed.

Lemma land_shiftl_small (b k w : Z) :
  (0 <= k)%Z -> (0 <= b)%Z -> (b * 2^k < 2^w)%Z -> (0 <= w)%Z ->
  Z.land (Z.shiftl b k) (2^w - 1) = Z.shiftl b k.
Proof.
  intros Hk Hb Hlt Hw.
  replace (2^w - 1)%Z with (Z.ones w) by (rewrite Z.ones_equiv; lia).
  rewrite Z.land_ones by lia.
  rewrite Z.shiftl_mul_pow2 by lia. apply Z.mod_small.
  split; [apply Z.mul_nonneg_nonneg; lia | lia].
Qed.

(** [binary.BigEndian.Uint16] on two bytes. *)
Lemma be16_value (b0 b1 : Z) :
  is_byte b0 -> is_byte b1 ->
  Z.lor b1 (Z.land (Z.shiftl b0 8) 65535) = (b0 * 256 + b1)%Z.
Proof.
  intros H0 H1. unfold is_byte in *.
  change 65535%Z with (2^16 - 1)%Z.
  rewrite land_shiftl_small by lia.
  rewrite lor_shiftl_add by (cbn; lia). cbn. lia.
Qed.

(** [binary.BigEndian.Uint32] on four bytes. *)
Lemma be32_value (b0 b1 b2 b3 : Z) :
  is_byte b0 -> is_byte b1 -> is_byte b2 -> is_byte b3 ->
  Z.lor (Z.lor b3 (Z.shiftl b2 8))
        (Z.lor (Z.shiftl b1 16) (Z.land (Z.shiftl b0 24) (2^32 - 1)))
  = (b0 * 2^24 + b1 * 2^16 + b2 * 2^8 + b3)%Z.
Proof.
  intros H0 H1 H2 H3. unfold is_byte in *.
  rewrite land_shiftl_small by lia.
  replace (Z.shiftl b0 24) with (Z.shiftl (Z.shiftl b0 8) 16)
    by (rewrite Z.shiftl_shiftl by lia; reflexivity).
  rewrite <- Z.shiftl_lor.
  rewrite (lor_shiftl_add b1 b0 8) by (cbn; lia).
  rewrite (lor_shiftl_add b3 b2 8) by (cbn; lia).
  rewrite lor_shiftl_add by (cbn; lia). cbn. lia.
Qed.

End ByteArith.

(** ** The capability helpers of [OpenMessage] *)
Module CapabilityFacts.
Import BGP BGP.ITLV.

Section Caps.
Context {Capability : Type} (cap_lookup : Capability -> Z -> option (list Z))
  (UnmarshalBGPCapability : list Z -> Capability * option string) (cap_nil : Capability).

Lemma is4_loop_skip (pre rest : list InformationalTLV) :
  Forall (fun t' => ITLV.Type' t' <> 2%Z \/
                    exists c e, UnmarshalBGPCapability (ITLV.Value t') = (c, Some e)) pre ->
  Is4BytesASCapable_loop _ cap_lookup UnmarshalBGPCapability (pre ++ rest)
  = Is4BytesASCapable_loop _ cap_lookup UnmarshalBGPCapability rest.
Proof.
  induction 1 as [| t' pre' Ht' _ IH]; [reflexivity |]. cbn [app Is4BytesASCapable_loop].
  destruct Ht' as [Hne | (c & e & He)].
  - destruct (Z.eqb_spec (ITLV.Type' t') 2); [done |]. exact IH.
  - destruct (Z.eqb_spec (ITLV.Type' t') 2); cbn [negb]; [| exact IH].
    rewrite He. exact IH.
Qed.

Lemma get_loop_skip (pre rest : list InformationalTLV) :
  Forall (fun t' => ITLV.Type' t' <> 2%Z) pre ->
  GetCapabilities_loop _ UnmarshalBGPCapability cap_nil (pre ++ rest)
  = GetCapabilities_loop _ UnmarshalBGPCapability cap_nil rest.
Proof.
  induction 1 as [| t' pre' Ht' _ IH]; [reflexivity |]. cbn [app GetCapabilities_loop].
  destruct (Z.eqb_spec (ITLV.Type' t') 2); [done |]. exact IH.
Qed.

(** A nil error from [GetCapabilities] comes from the first type-2 parameter. *)
Lemma get_loop_found (ts : list InformationalTLV) (caps : Capability) :
  GetCapabilities_loop _ UnmarshalBGPCapability cap_nil ts = (caps, None) ->
  exists pre t post, ts = pre ++ t :: post /\
    Forall (fun t' => ITLV.Type' t' <> 2%Z) pre /\ ITLV.Type' t = 2%Z /\
    UnmarshalBGPCapability (ITLV.Value t) = (caps, None).
Proof.
  induction ts as [| t ts IH]; cbn [GetCapabilities_loop]; [discriminate |].
  destruct (Z.eqb_spec (ITLV.Type' t) 2) as [Ht | Ht]; cbn [negb].
  - intros Hd. exists [], t, ts. repeat split; [constructor | done | done].
  - intros Hd. destruct (IH Hd) as (pre & t' & post & -> & Hpre & Ht' & Hd').
    exists (t :: pre), t', post. repeat split; [| done | done].
    by constructor.
Qed.

End Caps.

End CapabilityFacts.

(** ** Further properties of [GetCapabilities], [Is4BytesASCapable] and
    [IsMultiLabelCapable] *)
Module CapabilityExtras.
Import BGP BGP.ITLV ByteArith.

(** Without a type-2 optional parameter, [GetCapabilities] returns the nil
    map and the error "not found", without calling the capability decoder. *)
Theorem getcapabilities_not_found
    {Capability : Type} (UnmarshalBGPCapability : list Z -> Capability * option string)
    (cap_nil : Capability) (m : OpenMessage) :
  Forall (fun t => ITLV.Type' t <> 2%Z) (OptionalParameters m) ->
  GetCapabilities _ UnmarshalBGPCapability cap_nil m = (cap_nil, Some "not found"%string).
Proof.
  intros Hall. unfold GetCapabilities.
  rewrite <- (app_nil_r (OptionalParameters m)).
  rewrite CapabilityFacts.get_loop_skip by exact Hall. reflexivity.
Qed.

Lemma getcapabilities_not_found_witness :
  Forall (fun t => ITLV.Type' t <> 2%Z) (OptionalParameters (open_msg [param 8 []; param 1 [7]%Z])) /\
  GetCapabilities _ SpecTLV.UnmarshalBGPCapability [] (open_msg [param 8 []; param 1 [7]%Z])
  = ([], Some "not found"%string).
Proof.
  assert (Hall : Forall (fun t => ITLV.Type' t <> 2%Z)
                   (OptionalParameters (open_msg [param 8 []; param 1 [7]%Z]))).
  { repeat constructor; cbn; discriminate. }
  split; [exact Hall |]. exact (getcapabilities_not_found _ [] _ Hall).
Defined.

(** [GetCapabilities] returns the capability decoder's result on the value
    of the first type-2 optional parameter as it is, an error included;
    later type-2 parameters are never looked at. *)
Theorem getcapabilities_first_type2
    {Capability : Type} (UnmarshalBGPCapability : list Z -> Capability * option string)
    (cap_nil : Capability) (m : OpenMessage) (pre post : list InformationalTLV)
    (t : InformationalTLV) :
  OptionalParameters m = pre ++ t :: post ->
  Forall (fun t' => ITLV.Type' t' <> 2%Z) pre -> ITLV.Type' t = 2%Z ->
  GetCapabilities _ UnmarshalBGPCapability cap_nil m = UnmarshalBGPCapability (ITLV.Value t).
Proof.
  intros Hm Hpre Ht. unfold GetCapabilities. rewrite Hm.
  rewrite CapabilityFacts.get_loop_skip by exact Hpre. cbn [GetCapabilities_loop].
  rewrite Ht. reflexivity.
Qed.

Lemma getcapabilities_first_type2_witness :
  GetCapabilities _ SpecTLV.UnmarshalBGPCapability []
    (open_msg [param 8 []; param 2 [65]%Z; param 2 [1; 0]%Z])
  = ([], Some "malformed capability"%string).
Proof.
  rewrite (getcapabilities_first_type2 SpecTLV.UnmarshalBGPCapability []
             (open_msg [param 8 []; param 2 [65]%Z; param 2 [1; 0]%Z])
             [param 8 []] [param 2 [1; 0]%Z] (param 2 [65]%Z) eq_refl
             ltac:(repeat constructor; cbn; discriminate) eq_refl).
  reflexivity.
Defined.

(** [IsMultiLabelCapable] is true exactly when some optional parameter has
    type 8 (the Multiple Labels parameter); nothing else is inspected. *)
Theorem ismultilabel_iff_type8 (m : OpenMessage) :
  IsMultiLabelCapable m = true <-> Exists (fun t => ITLV.Type' t = 8%Z) (OptionalParameters m).
Proof.
  unfold IsMultiLabelCapable. induction (OptionalParameters m) as [| t ts IH];
    cbn [IsMultiLabelCapable_loop].
  - split; [discriminate | intros H; inversion H].
  - rewrite Exists_cons. destruct (Z.eqb_spec (ITLV.Type' t) 8) as [H8 | H8].
    + tauto.
    + rewrite IH. tauto.
Qed.

(** When no type-2 optional parameter has a value the capability decoder
    accepts, [Is4BytesASCapable] returns (0, false). *)
Theorem is4bytes_none_decoded
    {Capability : Type} (cap_lookup : Capability -> Z -> option (list Z))
    (UnmarshalBGPCapability : list Z -> Capability * option string) (m : OpenMessage) :
  Forall (fun t => ITLV.Type' t <> 2%Z \/
                   exists c e, UnmarshalBGPCapability (ITLV.Value t) = (c, Some e))
         (OptionalParameters m) ->
  Is4BytesASCapable _ cap_lookup UnmarshalBGPCapability m = Returns (0%Z, false).
Proof.
  intros Hall. unfold Is4BytesASCapable.
  rewrite <- (app_nil_r (OptionalParameters m)).
  rewrite CapabilityFacts.is4_loop_skip by exact Hall. reflexivity.
Qed.

Lemma is4bytes_none_decoded_witness :
  Is4BytesASCapable _ SpecTLV.cap_lookup SpecTLV.UnmarshalBGPCapability
    (open_msg [param 8 []; param 2 [65]%Z])
  = Returns (0%Z, false).
Proof.
  apply is4bytes_none_decoded. cbn [open_msg OptionalParameters].
  constructor; [left; cbn; discriminate |].
  constructor; [right; eexists _, _; reflexivity | constructor].
Defined.

(** When [GetCapabilities] returns a map with a nil error, [Is4BytesASCapable]
    decides on that same map: without code 65 it returns (0, false); with a
    code-65 value of at least 4 bytes it returns the first 4 bytes read as a
    big-endian number, converted to [int32], and true; with a shorter value
    it panics (index out of range). *)
Theorem is4bytes_reads_getcapabilities_map
    {Capability : Type} (cap_lookup : Capability -> Z -> option (list Z))
    (UnmarshalBGPCapability : list Z -> Capability * option string)
    (cap_nil : Capability) (m : OpenMessage) (caps : Capability) :
  GetCapabilities _ UnmarshalBGPCapability cap_nil m = (caps, None) ->
  (cap_lookup caps 65%Z = None ->
   Is4BytesASCapable _ cap_lookup UnmarshalBGPCapability m = Returns (0%Z, false)) /\
  (forall v, cap_lookup caps 65%Z = Some v -> (4 <= length v)%nat ->
   Forall (fun x => 0 <= x < 256)%Z v ->
   Is4BytesASCapable _ cap_lookup UnmarshalBGPCapability m
   = Returns (to_int32 (v !!! 0%nat * 2^24 + v !!! 1%nat * 2^16
                        + v !!! 2%nat * 2^8 + v !!! 3%nat)%Z, true)) /\
  (forall v, cap_lookup caps 65%Z = Some v -> (length v < 4)%nat ->
   Is4BytesASCapable _ cap_lookup UnmarshalBGPCapability m = Panics IndexOutOfRange).
Proof.
  intros Hg. unfold GetCapabilities in Hg.
  destruct (CapabilityFacts.get_loop_found _ _ _ _ Hg) as (pre & t & post & Hm & Hpre & Ht & Hd).
  assert (Hi : Is4BytesASCapable _ cap_lookup UnmarshalBGPCapability m
               = match cap_lookup caps 65%Z with
                 | None => Returns (0%Z, false)
                 | Some v => match be_uint32 v with
                             | Returns u => Returns (to_int32 u, true)
                             | Panics k => Panics k
                             end
                 end).
  { unfold Is4BytesASCapable. rewrite Hm, CapabilityFacts.is4_loop_skip.
    - cbn [Is4BytesASCapable_loop]. rewrite Ht. cbn [Z.eqb negb Pos.eqb]. by rewrite Hd.
    - apply (Forall_impl _ _ _ Hpre). intros x Hx. left. exact Hx. }
  rewrite Hi. split; [| split].
  - intros ->. reflexivity.
  - intros v Hv Hl Hb. rewrite Hv. unfold be_uint32.
    assert (Hby : forall i, (i < 4)%nat -> v !! i = Some (v !!! i) /\ is_byte (v !!! i)).
    { intros i Hi4. assert (Hs : v !! i = Some (v !!! i))
        by (apply list_lookup_lookup_total_lt; lia).
      split; [exact Hs |]. exact (Forall_lookup_1 _ _ _ _ Hb Hs). }
    destruct (Hby 0%nat) as [-> H0]; [lia |]. destruct (Hby 1%nat) as [-> H1]; [lia |].
    destruct (Hby 2%nat) as [-> H2]; [lia |]. destruct (Hby 3%nat) as [-> H3]; [lia |].
    rewrite be32_value by assumption. reflexivity.
  - intros v Hv Hl. rewrite Hv. unfold be_uint32.
    rewrite (lookup_ge_None_2 v 3) by lia. reflexivity.
Qed.

Lemma is4bytes_reads_getcapabilities_map_witness :
  GetCapabilities _ SpecTLV.UnmarshalBGPCapability [] (open_msg [param 2 [65; 4; 255; 255; 255; 254]%Z])
  = ([(65%Z, [255; 255; 255; 254]%Z)], None) /\
  Is4BytesASCapable _ SpecTLV.cap_lookup SpecTLV.UnmarshalBGPCapability
    (open_msg [param 2 [65; 4; 255; 255; 255; 254]%Z])
  = Returns ((-2)%Z, true).
Proof.
  assert (Hg : GetCapabilities _ SpecTLV.UnmarshalBGPCapability []
                 (open_msg [param 2 [65; 4; 255; 255; 255; 254]%Z])
               = ([(65%Z, [255; 255; 255; 254]%Z)], None)) by reflexivity.
  split; [exact Hg |].
  rewrite (proj1 (proj2 (is4bytes_reads_getcapabilities_map SpecTLV.cap_lookup _ _ _ _ Hg))
             [255; 255; 255; 254]%Z eq_refl ltac:(cbn; lia)
             ltac:(repeat constructor; lia)).
  reflexivity.
Defined.

End CapabilityExtras.

(** ** Sub-slices *)
Module SliceFacts.

(** [b[lo:hi]] shows bytes [lo, hi) of [b] when [hi <= len(b)]. *)
Lemma contents_sub (h : heap) (b : slice) (a : list Z) (lo hi c : nat) :
  h !! s_arr b = Some a -> (lo <= hi)%nat -> (hi <= s_len b)%nat ->
  contents h (mkSlice (s_arr b) (s_off b + lo) (hi - lo) c)
  = take (hi - lo) (drop lo (contents h b)).
Proof.
  intros Ha Hlh Hhi. unfold contents. cbn [s_arr s_off s_len]. rewrite Ha.
  replace (s_len b) with (lo + (s_len b - lo))%nat by lia.
  rewrite <- take_drop_commute, take_take, drop_drop.
  f_equal. lia.
Qed.

Lemma byte_at (bs : list Z) (i : nat) :
  Forall (fun x => 0 <= x < 256)%Z bs -> (i < length bs)%nat ->
  ByteArith.is_byte (bs !!! i).
Proof.
  intros Hb Hi. apply (Forall_lookup_1 _ _ i _ Hb).
  by apply list_lookup_lookup_total_lt.
Qed.

End SliceFacts.

(** ** Further properties of [UnmarshalBGPOpenMessage] *)
Module OpenExtras.
Import BGP BGP.ITLV ByteArith.

(** A decoded Open message, on a well-formed buffer of bytes, has type 1
    and version 4; [Length], [MyAS] and [HoldTime] are the big-endian
    16-bit numbers at offsets 0, 4 and 6 ([Length] and [HoldTime] as Go
    [int16]), [OptParamLen] is byte 12, and [BGPID] is a 4-byte array that
    did not exist before the call and holds bytes 8 to 11, as long as the
    TLV scanner leaves existing arrays alone. *)
Theorem open_decoded_fields
    (U : slice -> M (list InformationalTLV * option string)) (h : heap) (b : slice)
    (m : OpenMessage) (h' : heap) :
  slice_wf h b -> (29 <= s_len b)%nat ->
  Forall (fun x => 0 <= x < 256)%Z (contents h b) ->
  (forall s, Frame.keeps (fun _ => True) (U s)) ->
  UnmarshalBGPOpenMessage U b h = Done (Some m, None) h' ->
  let bs := contents h b in
  BGP.Type' m = 1%Z /\ Version m = 4%Z /\
  BGP.Length m = to_int16 (bs !!! 0%nat * 256 + bs !!! 1%nat)%Z /\
  MyAS m = (bs !!! 4%nat * 256 + bs !!! 5%nat)%Z /\
  HoldTime m = to_int16 (bs !!! 6%nat * 256 + bs !!! 7%nat)%Z /\
  OptParamLen m = bs !!! 12%nat /\
  h !! s_arr (BGPID m) = None /\ s_len (BGPID m) = 4%nat /\
  contents h' (BGPID m) = take 4 (drop 8 bs).
Proof.
  intros Hwf Hl Hbytes HU Hd bs. destruct Hwf as (a & Ha & Hlc & Hca).
  assert (Hlen : length bs = s_len b) by (eapply GoFacts.length_contents; eauto).
  assert (Hby : forall i, (i < 29)%nat -> is_byte (bs !!! i))
    by (intros i Hi; apply SliceFacts.byte_at; [exact Hbytes | lia]).
  rewrite (OpenFacts.open_unfold U h b a Ha Hlc Hca Hl) in Hd. cbv zeta in Hd. fold bs in Hd.
  set (h2 := h ++ [take 4 (drop 8 bs)]) in Hd.
  assert (Hfin : forall tlvs h3, h3 !! length h = Some (take 4 (drop 8 bs)) ->
    bs !!! 2%nat = 1%Z -> bs !!! 3%nat = 4%Z ->
    let m' := {| BGP.Length := to_int16 (Z.lor (bs !!! 1%nat) (Z.land (Z.shiftl (bs !!! 0%nat) 8) 65535));
                 BGP.Type' := bs !!! 2%nat; Version := bs !!! 3%nat;
                 MyAS := Z.lor (bs !!! 5%nat) (Z.land (Z.shiftl (bs !!! 4%nat) 8) 65535);
                 HoldTime := to_int16 (Z.lor (bs !!! 7%nat) (Z.land (Z.shiftl (bs !!! 6%nat) 8) 65535));
                 BGPID := mkSlice (length h) 0 4 4;
                 OptParamLen := bs !!! 12%nat; OptionalParameters := tlvs |} in
    BGP.Type' m' = 1%Z /\ Version m' = 4%Z /\
    BGP.Length m' = to_int16 (bs !!! 0%nat * 256 + bs !!! 1%nat)%Z /\
    MyAS m' = (bs !!! 4%nat * 256 + bs !!! 5%nat)%Z /\
    HoldTime m' = to_int16 (bs !!! 6%nat * 256 + bs !!! 7%nat)%Z /\
    OptParamLen m' = bs !!! 12%nat /\
    h !! s_arr (BGPID m') = None /\ s_len (BGPID m') = 4%nat /\
    contents h3 (BGPID m') = take 4 (drop 8 bs)).
  { intros tlvs h3 H3 E2 E3 m'. cbn. split; [done |]. split; [done |].
    rewrite !be16_value by (apply Hby; lia).
    split; [done |]. split; [done |]. split; [done |]. split; [done |].
    split; [by apply lookup_ge_None_2 |]. split; [done |].
    unfold contents. cbn [s_arr s_off s_len]. rewrite H3, drop_0, take_idemp. done. }
  assert (H2 : h2 !! length h = Some (take 4 (drop 8 bs)))
    by (apply list_lookup_middle; reflexivity).
  destruct (Z.eqb_spec (bs !!! 2%nat) 1) as [E2 | E2]; cbn [negb] in Hd; [| discriminate Hd].
  destruct (Z.eqb_spec (bs !!! 3%nat) 4) as [E3 | E3]; cbn [negb] in Hd; [| discriminate Hd].
  destruct (Z.eqb_spec (bs !!! 12%nat) 0) as [E12 | E12]; cbn [negb] in Hd.
  - injection Hd as <- <-. exact (Hfin [] h2 H2 E2 E3).
  - destruct (Nat.leb_spec (13 + Z.to_nat (bs !!! 12%nat)) (s_cap b)); [| discriminate Hd].
    destruct (U _ h2) as [[tlvs [e |]] h3 | k h3] eqn:EU; [discriminate Hd | | discriminate Hd].
    injection Hd as <- <-. apply (Hfin tlvs h3); [| exact E2 | exact E3].
    destruct (HU (mkSlice (s_arr b) (s_off b + 13) (Z.to_nat (bs !!! 12%nat)) (s_cap b - 13)) h2)
      as [_ Hk].
    rewrite EU in Hk. cbn [out_heap] in Hk. rewrite Hk; [exact H2 | | done].
    unfold h2. rewrite length_app. cbn. lia.
Qed.

Lemma open_decoded_fields_witness :
  exists m h',
    UnmarshalBGPOpenMessage SpecTLV.UnmarshalBGPTLV (mkSlice 0 0 29 29) [open_buf 1 4 0]
    = Done (Some m, None) h' /\
    MyAS m = 1%Z /\ HoldTime m = 90%Z /\ contents h' (BGPID m) = [10; 0; 0; 1]%Z.
Proof.
  assert (Hwf : slice_wf [open_buf 1 4 0] (mkSlice 0 0 29 29)).
  { eexists. split; [reflexivity | cbv; lia]. }
  assert (Hby : Forall (fun x => 0 <= x < 256)%Z (contents [open_buf 1 4 0] (mkSlice 0 0 29 29))).
  { change (contents [open_buf 1 4 0] (mkSlice 0 0 29 29)) with (open_buf 1 4 0).
    unfold open_buf. cbn [app replicate].
    repeat (apply List.Forall_cons; [lia |]). apply List.Forall_nil. }
  eexists _, _. split; [reflexivity |].
  destruct (open_decoded_fields SpecTLV.UnmarshalBGPTLV _ _ _ _ Hwf ltac:(cbv; lia) Hby
              DecoderFrames.spec_tlv_keeps eq_refl)
    as (_ & _ & _ & HAS & HHT & _ & _ & _ & Hid).
  split; [rewrite HAS; reflexivity |]. split; [rewrite HHT; reflexivity |].
  rewrite Hid. reflexivity.
Defined.

(** With an optional-parameter length byte of 0 the TLV scanner is never
    called: on a well-formed buffer of at least 29 bytes the outcome is the
    same whatever the scanner, and a decoded message has no optional
    parameters. *)
Theorem open_zero_optparamlen_no_scan
    (U U' : slice -> M (list InformationalTLV * option string)) (h : heap) (b : slice) :
  slice_wf h b -> (29 <= s_len b)%nat -> contents h b !!! 12%nat = 0%Z ->
  UnmarshalBGPOpenMessage U b h = UnmarshalBGPOpenMessage U' b h /\
  forall m h', UnmarshalBGPOpenMessage U b h = Done (Some m, None) h' ->
    OptionalParameters m = [].
Proof.
  intros (a & Ha & Hlc & Hca) Hl H12.
  rewrite (OpenFacts.open_unfold U h b a Ha Hlc Hca Hl),
          (OpenFacts.open_unfold U' h b a Ha Hlc Hca Hl). cbv zeta.
  rewrite H12. cbn [Z.eqb negb]. split; [reflexivity |].
  intros m h'. destruct (negb (contents h b !!! 2%nat =? 1)%Z); [discriminate |].
  destruct (negb (contents h b !!! 3%nat =? 4)%Z); [discriminate |].
  intros Hd. injection Hd as <- _. reflexivity.
Qed.

Lemma open_zero_optparamlen_no_scan_witness :
  UnmarshalBGPOpenMessage SpecTLV.UnmarshalBGPTLV (mkSlice 0 0 29 29) [open_buf 1 4 0]
  = UnmarshalBGPOpenMessage (fun _ => panic IndexOutOfRange) (mkSlice 0 0 29 29)
      [open_buf 1 4 0].
Proof.
  assert (Hwf : slice_wf [open_buf 1 4 0] (mkSlice 0 0 29 29)).
  { eexists. split; [reflexivity | cbv; lia]. }
  exact (proj1 (open_zero_optparamlen_no_scan SpecTLV.UnmarshalBGPTLV
                  (fun _ => panic IndexOutOfRange) _ _ Hwf ltac:(cbv; lia) eq_refl)).
Defined.

(** With type 1, version 4 and a non-zero optional-parameter length [opl]
    whose region lies inside the buffer, the TLV scanner receives a slice of
    the input's own array showing exactly bytes [13, 13+opl), on the heap
    where [BGPID] is filled; its outcome decides: an error is returned as it
    is with a nil message, a result becomes [OptionalParameters], and a
    panic propagates. *)
Theorem open_scanner_region
    (U : slice -> M (list InformationalTLV * option string)) (h : heap) (b : slice) :
  slice_wf h b -> (29 <= s_len b)%nat ->
  contents h b !!! 2%nat = 1%Z -> contents h b !!! 3%nat = 4%Z ->
  contents h b !!! 12%nat <> 0%Z ->
  (13 + Z.to_nat (contents h b !!! 12%nat) <= s_len b)%nat ->
  let n := Z.to_nat (contents h b !!! 12%nat) in
  let w := mkSlice (s_arr b) (s_off b + 13) n (s_cap b - 13) in
  let h2 := h ++ [take 4 (drop 8 (contents h b))] in
  s_arr w = s_arr b /\
  contents h2 w = take n (drop 13 (contents h b)) /\
  (forall tlvs e h3, U w h2 = Done (tlvs, Some e) h3 ->
     UnmarshalBGPOpenMessage U b h = Done (None, Some e) h3) /\
  (forall tlvs h3, U w h2 = Done (tlvs, None) h3 ->
     exists m, UnmarshalBGPOpenMessage U b h = Done (Some m, None) h3 /\
               OptionalParameters m = tlvs) /\
  (forall k h3, U w h2 = Panic k h3 -> UnmarshalBGPOpenMessage U b h = Panic k h3).
Proof.
  intros (a & Ha & Hlc & Hca) Hl E2 E3 E12 Hn n w h2.
  rewrite (OpenFacts.open_unfold U h b a Ha Hlc Hca Hl). cbv zeta.
  rewrite E2, E3. cbn [Z.eqb negb Pos.eqb].
  destruct (Z.eqb_spec (contents h b !!! 12%nat) 0) as [| _]; [done |]. cbn [negb].
  destruct (Nat.leb_spec (13 + Z.to_nat (contents h b !!! 12%nat)) (s_cap b)); [| lia].
  fold n w h2. split; [reflexivity |]. split.
  - unfold h2. rewrite GoFacts.contents_app_old by (eapply lookup_lt_Some; eauto).
    pose proof (SliceFacts.contents_sub h b a 13 (13 + n) (s_cap b - 13) Ha
                  ltac:(lia) ltac:(lia)) as Hs.
    replace (13 + n - 13)%nat with n in Hs by lia. exact Hs.
  - split; [| split].
    + intros tlvs e h3 ->. reflexivity.
    + intros tlvs h3 ->. eexists. split; reflexivity.
    + intros k h3 ->. reflexivity.
Qed.

Lemma open_scanner_region_witness :
  exists m h3,
    UnmarshalBGPOpenMessage SpecTLV.UnmarshalBGPTLV (mkSlice 0 0 29 29) [open_buf 1 4 4]
    = Done (Some m, None) h3 /\
    OptionalParameters m = [param 0 []; param 0 []].
Proof.
  assert (Hwf : slice_wf [open_buf 1 4 4] (mkSlice 0 0 29 29)).
  { eexists. split; [reflexivity | cbv; lia]. }
  destruct (open_scanner_region SpecTLV.UnmarshalBGPTLV _ _ Hwf ltac:(cbv; lia)
              eq_refl eq_refl ltac:(vm_compute; discriminate) ltac:(vm_compute; lia))
    as (_ & _ & _ & Hok & _).
  destruct (Hok [param 0 []; param 0 []] [open_buf 1 4 4; [10; 0; 0; 1]%Z] eq_refl)
    as (m & Hd & Hp).
  exists m, [open_buf 1 4 4; [10; 0; 0; 1]%Z]. split; assumption.
Defined.

(** On a well-formed buffer of at least 29 bytes the decoder panics
    exactly when type and version are right, the optional-parameter length
    [opl] is non-zero, and either [13+opl] exceeds the buffer's capacity
    (the slice expression [b[13:13+opl]] fails) or the TLV scanner panics on
    the region: every other read is within bounds. *)
Theorem open_panics_iff
    (U : slice -> M (list InformationalTLV * option string)) (h : heap) (b : slice) :
  slice_wf h b -> (29 <= s_len b)%nat ->
  let n := Z.to_nat (contents h b !!! 12%nat) in
  (exists k h', UnmarshalBGPOpenMessage U b h = Panic k h') <->
  contents h b !!! 2%nat = 1%Z /\ contents h b !!! 3%nat = 4%Z /\
  contents h b !!! 12%nat <> 0%Z /\
  ((s_cap b < 13 + n)%nat \/
   exists k h3, U (mkSlice (s_arr b) (s_off b + 13) n (s_cap b - 13))
                  (h ++ [take 4 (drop 8 (contents h b))]) = Panic k h3).
Proof.
  intros (a & Ha & Hlc & Hca) Hl n.
  rewrite (OpenFacts.open_unfold U h b a Ha Hlc Hca Hl). cbv zeta. fold n.
  destruct (Z.eqb_spec (contents h b !!! 2%nat) 1) as [E2 | E2]; cbn [negb].
  2:{ split; [intros (k & h' & Hp); discriminate Hp | intros (? & _); done]. }
  destruct (Z.eqb_spec (contents h b !!! 3%nat) 4) as [E3 | E3]; cbn [negb].
  2:{ split; [intros (k & h' & Hp); discriminate Hp | intros (_ & ? & _); done]. }
  destruct (Z.eqb_spec (contents h b !!! 12%nat) 0) as [E12 | E12]; cbn [negb].
  { split; [intros (k & h' & Hp); discriminate Hp | intros (_ & _ & ? & _); done]. }
  destruct (Nat.leb_spec (13 + n) (s_cap b)).
  - destruct (U _ _) as [[tlvs [e |]] h3 | k h3] eqn:EU.
    + split; [intros (k & h' & Hp); discriminate Hp |].
      intros (_ & _ & _ & [Hc | (k & h4 & Hk)]); [lia | congruence].
    + split; [intros (k & h' & Hp); discriminate Hp |].
      intros (_ & _ & _ & [Hc | (k & h4 & Hk)]); [lia | congruence].
    + split; [intros _; eauto 10 |]. intros _. eauto.
  - split; [intros _; eauto 10 |]. intros _. eauto.
Qed.

Lemma open_panics_iff_witness :
  exists k h',
    UnmarshalBGPOpenMessage SpecTLV.UnmarshalBGPTLV (mkSlice 0 0 29 29) [open_buf 1 4 17]
    = Panic k h'.
Proof.
  assert (Hwf : slice_wf [open_buf 1 4 17] (mkSlice 0 0 29 29)).
  { eexists. split; [reflexivity | cbv; lia]. }
  apply (proj2 (open_panics_iff SpecTLV.UnmarshalBGPTLV _ _ Hwf ltac:(cbv; lia))).
  split; [reflexivity |]. split; [reflexivity |]. split; [vm_compute; discriminate |].
  left. vm_compute. lia.
Defined.

End OpenExtras.

(** ** Further properties of [UnmarshalSRLocalBlock] *)
Module LocalBlockExtras.
Import SR.

(** On a buffer shorter than 2 bytes [UnmarshalSRLocalBlock] panics whatever
    the sub-TLV scanner, before calling it and with the heap untouched: the
    empty buffer on [b[0]] (index out of range), a one-byte buffer on
    [b[2:]] (slice bounds out of range). *)
Theorem localblock_short_panics {LBT : Type}
    (ULB : slice -> M (list LBT * option string)) (h : heap) (b : slice) :
  (s_len b = 0%nat -> UnmarshalSRLocalBlock LBT ULB b h = Panic IndexOutOfRange h) /\
  (slice_wf h b -> s_len b = 1%nat ->
   UnmarshalSRLocalBlock LBT ULB b h = Panic SliceBoundsOutOfRange h).
Proof.
  split.
  - intros H0. unfold UnmarshalSRLocalBlock, bind at 1, index. rewrite H0. reflexivity.
  - intros Hwf H1. pose proof Hwf as (a & Ha & Hlc & Hca).
    unfold UnmarshalSRLocalBlock, bind at 1.
    rewrite MSDFacts.index_contents by (done || lia).
    unfold slice_from, bind, slice_lh. rewrite H1. reflexivity.
Qed.

Lemma localblock_short_panics_witness :
  slice_wf [[128; 0; 8; 0]%Z] (mkSlice 0 0 1 4) /\ s_len (mkSlice 0 0 1 4) = 1%nat /\
  UnmarshalSRLocalBlock _ SpecTLV.UnmarshalBGPTLV (mkSlice 0 0 1 4) [[128; 0; 8; 0]%Z]
  = Panic SliceBoundsOutOfRange [[128; 0; 8; 0]%Z].
Proof.
  assert (Hwf : slice_wf [[128; 0; 8; 0]%Z] (mkSlice 0 0 1 4)).
  { eexists. split; [reflexivity | cbv; lia]. }
  split; [exact Hwf |]. split; [reflexivity |].
  exact (proj2 (localblock_short_panics SpecTLV.UnmarshalBGPTLV _ _) Hwf eq_refl).
Defined.

(** With at least 2 bytes, the sub-TLV scanner receives a slice of the
    input's own array showing exactly bytes 2 onward, on the heap of the
    call; its error is returned as it is with a nil block, and its panic
    propagates: the decoder adds no failure of its own. *)
Theorem localblock_scanner_region {LBT : Type}
    (ULB : slice -> M (list LBT * option string)) (h : heap) (b : slice) :
  slice_wf h b -> (2 <= s_len b)%nat ->
  let w := mkSlice (s_arr b) (s_off b + 2) (s_len b - 2) (s_cap b - 2) in
  s_arr w = s_arr b /\ contents h w = drop 2 (contents h b) /\
  (forall tlvs e h', ULB w h = Done (tlvs, Some e) h' ->
     UnmarshalSRLocalBlock LBT ULB b h = Done (None, Some e) h') /\
  (forall k h', ULB w h = Panic k h' -> UnmarshalSRLocalBlock LBT ULB b h = Panic k h').
Proof.
  intros Hwf Hl w. pose proof Hwf as (a & Ha & Hlc & Hca).
  assert (Hd : forall r, UnmarshalSRLocalBlock LBT ULB b h = r ->
     r = bind (ULB w) (fun x => match x with (tlvs, err) =>
           match err with
           | Some e => ret (None, Some e)
           | None => ret (Some {| Flags := contents h b !!! 0%nat; TLV := tlvs |}, None)
           end end) h).
  { intros r <-. unfold UnmarshalSRLocalBlock, bind at 1.
    rewrite MSDFacts.index_contents by (done || lia).
    unfold slice_from. rewrite GoFacts.bind_slice_lh by lia. reflexivity. }
  specialize (Hd _ eq_refl).
  split; [reflexivity |]. split; [| split].
  - assert (Hlen : length (contents h b) = s_len b) by (eapply GoFacts.length_contents; eauto).
    unfold w. rewrite (SliceFacts.contents_sub h b a 2 (s_len b) (s_cap b - 2) Ha) by lia.
    rewrite take_ge; [reflexivity |]. rewrite length_drop. lia.
  - intros tlvs e h' HU. rewrite Hd. unfold bind. rewrite HU. reflexivity.
  - intros k h' HU. rewrite Hd. unfold bind. rewrite HU. reflexivity.
Qed.

Lemma localblock_scanner_region_witness :
  UnmarshalSRLocalBlock _ SpecTLV.UnmarshalBGPTLV (mkSlice 0 0 3 3) [[1; 0; 8]%Z]
  = Done (None, Some "malformed TLV"%string) [[1; 0; 8]%Z].
Proof.
  assert (Hwf : slice_wf [[1; 0; 8]%Z] (mkSlice 0 0 3 3)).
  { eexists. split; [reflexivity | cbv; lia]. }
  destruct (localblock_scanner_region SpecTLV.UnmarshalBGPTLV _ _ Hwf ltac:(cbv; lia))
    as (_ & _ & Herr & _).
  exact (Herr [] "malformed TLV"%string [[1; 0; 8]%Z] eq_refl).
Defined.

End LocalBlockExtras.
